(** * Broadcast-Server: the server side of [broadcast-server.js]

    A shallow embedding of class [BroadcastServer]: the three fields of the
    object ([clients], [messageHistory], [usernames]), its handlers
    ([handleConnection], [parseMessage], [handleAuth],
    [handlePrivateMessage], [broadcast]) and the socket callbacks registered
    by [handleConnection], followed by the properties of the registry, the
    router and the history buffer. *)

From Stdlib Require Import List String Ascii ZArith Bool Arith Lia DecimalString.
Import ListNotations.
Local Open Scope string_scope.
Local Open Scope nat_scope.
Local Open Scope list_scope.
Local Set Warnings "-register-all".

(** ** JavaScript values *)

Module JS.

(** The values [JSON.parse] can build, plus [undefined] (what an absent
    property reads as).  A number is kept as its binary64 bit pattern. *)
Inductive Value : Type :=
| Undefined
| Null
| Bool (b : bool)
| Num (bits : Z)
| Str (s : string)
| Arr (elements : list Value)
| Obj (properties : list (string * Value)).

Definition isNaN (bits : Z) : bool :=
  (Z.land (Z.shiftr bits 52) 2047 =? 2047)%Z
  && negb (Z.land bits (2 ^ 52 - 1) =? 0)%Z.

Definition isZero (bits : Z) : bool :=
  (Z.land bits (2 ^ 63 - 1) =? 0)%Z.

Definition isInfinite (bits : Z) : bool :=
  (Z.land (Z.shiftr bits 52) 2047 =? 2047)%Z
  && (Z.land bits (2 ^ 52 - 1) =? 0)%Z.

Arguments isNaN : simpl never.
Arguments isZero : simpl never.
Arguments isInfinite : simpl never.

(** [x === y], for two values that come from different [JSON.parse] calls:
    an object or an array is then never identical to the other operand. *)
Definition StrictEquals (x y : Value) : bool :=
  match x, y with
  | Undefined, Undefined => true
  | Null, Null => true
  | Bool a, Bool b => Bool.eqb a b
  | Num a, Num b =>
      negb (isNaN a) && negb (isNaN b) && ((a =? b)%Z || (isZero a && isZero b))
  | Str a, Str b => String.eqb a b
  | _, _ => false
  end.

(** The comparison of [Array.prototype.includes]: as [===], but NaN is
    equal to NaN. *)
Definition SameValueZero (x y : Value) : bool :=
  match x, y with
  | Num a, Num b => (isNaN a && isNaN b) || StrictEquals x y
  | _, _ => StrictEquals x y
  end.

(** [ToBoolean]. *)
Definition truthy (x : Value) : bool :=
  match x with
  | Undefined | Null => false
  | Bool b => b
  | Num a => negb (isZero a) && negb (isNaN a)
  | Str s => negb (String.eqb s "")
  | Arr _ | Obj _ => true
  end.

(** [x || y]. *)
Definition or (x y : Value) : Value := if truthy x then x else y.

(** [l.includes(x)]. *)
Definition includes (l : list Value) (x : Value) : bool :=
  existsb (fun y => SameValueZero y x) l.

(** [l.slice(-n)]: the last [n] elements, all of them when there are fewer. *)
Definition slice_last {A} (n : nat) (l : list A) : list A :=
  skipn (List.length l - n) l.

(** [l.shift()], for its effect on the array. *)
Definition shift {A} (l : list A) : list A := tl l.

(** Completion of an evaluation: a value, or an exception thrown. *)
Inductive Exception := TypeError.

Inductive Completion (A : Type) : Type :=
| Normal (a : A)
| Throw (e : Exception).
Arguments Normal {A} a.
Arguments Throw {A} e.

Definition bind {A B} (c : Completion A) (k : A -> Completion B) : Completion B :=
  match c with
  | Normal a => k a
  | Throw e => Throw e
  end.

Fixpoint own_property (ps : list (string * Value)) (k : string) : Value :=
  match ps with
  | [] => Undefined
  | (k', v) :: rest => if String.eqb k' k then v else own_property rest k
  end.

(** [x.k], for the four keys the server reads ([type], [username],
    [recipient], [content]): none of them is defined by a prototype, so the
    read yields the own property of an object, [undefined] on any other
    value, and throws on [null] and [undefined]. *)
Definition get (x : Value) (k : string) : Completion Value :=
  match x with
  | Undefined | Null => Throw TypeError
  | Obj ps => Normal (own_property ps k)
  | Bool _ | Num _ | Str _ | Arr _ => Normal Undefined
  end.

(** [JSON.stringify], up to the concrete syntax of the text: the JSON tree
    that the produced text denotes.  A property whose value is [undefined]
    is left out, an [undefined] array element is written [null]; a number
    that is not finite is written [null] and a zero is written [0]. *)
Fixpoint JSON_stringify (x : Value) : Value :=
  match x with
  | Num bits =>
      if isNaN bits || isInfinite bits then Null
      else if isZero bits then Num 0
      else x
  | Arr l =>
      Arr (map (fun e => match e with
                         | Undefined => Null
                         | _ => JSON_stringify e
                         end) l)
  | Obj ps =>
      Obj ((fix members (ps : list (string * Value)) : list (string * Value) :=
              match ps with
              | [] => []
              | (k, Undefined) :: rest => members rest
              | (k, v) :: rest => (k, JSON_stringify v) :: members rest
              end) ps)
  | _ => x
  end.

(** [x.k] once an earlier read on [x] has gone through, so that [x] is
    known to be neither [null] nor [undefined]. *)
Definition prop (x : Value) (k : string) : Value :=
  match x with
  | Obj ps => own_property ps k
  | _ => Undefined
  end.

(** *** [Map] with socket keys, in insertion order *)

Definition Map := list (nat * Value).

Fixpoint Map_has (m : Map) (k : nat) : bool :=
  match m with
  | [] => false
  | (k', _) :: rest => (k' =? k) || Map_has rest k
  end.

Fixpoint Map_get (m : Map) (k : nat) : Value :=
  match m with
  | [] => Undefined
  | (k', v) :: rest => if k' =? k then v else Map_get rest k
  end.

(** [m.set(k, v)]: an existing key keeps its place, a new one goes last. *)
Fixpoint Map_set (m : Map) (k : nat) (v : Value) : Map :=
  match m with
  | [] => [(k, v)]
  | (k', v') :: rest =>
      if k' =? k then (k, v) :: rest else (k', v') :: Map_set rest k v
  end.

Definition Map_values (m : Map) : list Value := map snd m.

(** *** [Set] of sockets, in insertion order *)

Definition SetOf := list nat.

Definition Set_has (s : SetOf) (x : nat) : bool := existsb (Nat.eqb x) s.

Definition Set_add (s : SetOf) (x : nat) : SetOf :=
  if Set_has s x then s else s ++ [x].

Definition Set_delete (s : SetOf) (x : nat) : SetOf :=
  filter (fun y => negb (y =? x)) s.

End JS.

Import JS.

Notation "x <- c ;; k" := (bind c (fun x => k))
  (at level 61, c at next level, right associativity).

(** ** The server object *)

(** A socket ([ws]) is known by its identity. *)
Definition WebSocket := nat.

(** [ws.readyState]. *)
Inductive ReadyState := CONNECTING | OPEN | CLOSING | CLOSED.

Definition ReadyState_eqb (a b : ReadyState) : bool :=
  match a, b with
  | CONNECTING, CONNECTING | OPEN, OPEN | CLOSING, CLOSING | CLOSED, CLOSED => true
  | _, _ => false
  end.

(** The fields [handleConnection] and the handlers work on. *)
Record BroadcastServer := {
  clients : SetOf;
  messageHistory : list Value;
  usernames : Map
}.

Definition constructor : BroadcastServer :=
  {| clients := []; messageHistory := []; usernames := [] |}.

(** One call [ws.send(JSON.stringify(x))]: the socket and the frame. *)
Definition Frame : Type := WebSocket * Value.

Definition send (ws : WebSocket) (x : Value) : list Frame :=
  [(ws, JSON_stringify x)].

(** [handleConnection], the part that runs at once: the socket joins
    [clients] and is sent the authentication request. *)
Definition handleConnection (this : BroadcastServer) (ws : WebSocket)
  : BroadcastServer * list Frame :=
  ({| clients := Set_add (clients this) ws;
      messageHistory := messageHistory this;
      usernames := usernames this |},
   send ws (Obj [("type", Str "auth_request")])).

(** The [close] callback of [handleConnection]. *)
Definition onClose (this : BroadcastServer) (ws : WebSocket) : BroadcastServer :=
  {| clients := Set_delete (clients this) ws;
     messageHistory := messageHistory this;
     usernames := usernames this |}.

(** The [error] callback of [handleConnection]. *)
Definition onError (this : BroadcastServer) (ws : WebSocket) : BroadcastServer :=
  {| clients := Set_delete (clients this) ws;
     messageHistory := messageHistory this;
     usernames := usernames this |}.

Definition handleAuth (this : BroadcastServer) (ws : WebSocket) (username : Value)
  : BroadcastServer * list Frame :=
  if includes (Map_values (usernames this)) username then
    (this,
     send ws (Obj [("type", Str "auth_error");
                   ("content", Str "Username already taken")]))
  else
    ({| clients := clients this;
        messageHistory := messageHistory this;
        usernames := Map_set (usernames this) ws username |},
     send ws (Obj [("type", Str "auth_success");
                   ("content", Str "Authentication successful");
                   ("history", Arr (slice_last 10 (messageHistory this)))])).

(** The entry [find] stops at in [handlePrivateMessage], reduced to its
    socket by [?.[0]]. *)
Definition find_recipient (this : BroadcastServer) (recipient : Value)
  : option WebSocket :=
  option_map fst
    (find (fun entry => StrictEquals (snd entry) recipient) (usernames this)).

(** [data.type] has been read by the caller, so the reads of [data] here
    do not throw.  [now] is [new Date().toISOString()]. *)
Definition handlePrivateMessage (this : BroadcastServer) (ws : WebSocket)
    (data : Value) (now : string) : BroadcastServer * list Frame :=
  let sender := Map_get (usernames this) ws in
  match find_recipient this (prop data "recipient") with
  | Some recipient =>
      let message := Obj [("type", Str "private");
                          ("sender", sender);
                          ("content", prop data "content");
                          ("timestamp", Str now)] in
      (this, send recipient message ++ send ws message)
  | None => (this, [])
  end.

(** The object [broadcast] builds, pushes and sends. *)
Definition broadcastMessage (this : BroadcastServer) (message : Value)
    (sender : WebSocket) (now : string) : Value :=
  let username := JS.or (Map_get (usernames this) sender) (Str "Anonymous") in
  Obj [("type", Str "broadcast");
       ("sender", username);
       ("content", message);
       ("timestamp", Str now)].

(** [messageHistory.push(m)] followed by the conditional [shift]. *)
Definition push_history (history : list Value) (m : Value) : list Value :=
  let pushed := history ++ [m] in
  if 100 <? List.length pushed then shift pushed else pushed.

(** [readyState] gives the state of every socket at the time of the call. *)
Definition broadcast (this : BroadcastServer) (readyState : WebSocket -> ReadyState)
    (message : Value) (sender : WebSocket) (now : string)
  : BroadcastServer * list Frame :=
  let m := broadcastMessage this message sender now in
  ({| clients := clients this;
      messageHistory := push_history (messageHistory this) m;
      usernames := usernames this |},
   flat_map (fun client =>
               if negb (client =? sender) && ReadyState_eqb (readyState client) OPEN
               then send client m
               else [])
            (clients this)).

(** ** The socket callbacks *)

(** The server together with what it reads and writes outside itself: the
    state of each socket, owned by the transport, and the frames handed to
    [send] so far, oldest first. *)
Record World := {
  server : BroadcastServer;
  readyState : WebSocket -> ReadyState;
  sent : list Frame
}.

(** What the event loop delivers: the four socket events the server listens
    to, and a change of a socket's state made by the transport. *)
Inductive Event :=
| connection (ws : WebSocket)
| message (ws : WebSocket) (payload : string) (now : string)
| close (ws : WebSocket)
| error (ws : WebSocket)
| transport (ws : WebSocket) (state : ReadyState).

Definition set_readyState (rs : WebSocket -> ReadyState) (ws : WebSocket)
    (state : ReadyState) : WebSocket -> ReadyState :=
  fun x => if x =? ws then state else rs x.

(** [start]: the fresh server, before the first connection. *)
Definition start : World :=
  {| server := constructor; readyState := fun _ => CONNECTING; sent := [] |}.

Section Router.

(** [JSON.parse]: [None] when it throws a [SyntaxError]. *)
Variable JSON_parse : string -> option Value.

Definition parseMessage (message : string) : Value :=
  match JSON_parse message with
  | Some data => data
  | None => Obj [("type", Str "message"); ("content", Str message)]
  end.

(** The [message] callback of [handleConnection]. *)
Definition onMessage (this : BroadcastServer) (readyState : WebSocket -> ReadyState)
    (ws : WebSocket) (message : string) (now : string)
  : Completion (BroadcastServer * list Frame) :=
  let data := parseMessage message in
  data_type <- get data "type" ;;
  if StrictEquals data_type (Str "auth") then
    Normal (handleAuth this ws (prop data "username"))
  else if StrictEquals data_type (Str "private") then
    Normal (handlePrivateMessage this ws data now)
  else
    Normal (broadcast this readyState (prop data "content") ws now).

(** One turn of the event loop.  A socket handed to the [connection]
    listener is open.  An exception leaves the callback uncaught. *)
Definition step (w : World) (e : Event) : Completion World :=
  match e with
  | connection ws =>
      let (this, out) := handleConnection (server w) ws in
      Normal {| server := this;
                readyState := set_readyState (readyState w) ws OPEN;
                sent := sent w ++ out |}
  | message ws payload now =>
      r <- onMessage (server w) (readyState w) ws payload now ;;
      Normal {| server := fst r;
                readyState := readyState w;
                sent := sent w ++ snd r |}
  | close ws =>
      Normal {| server := onClose (server w) ws;
                readyState := readyState w;
                sent := sent w |}
  | error ws =>
      Normal {| server := onError (server w) ws;
                readyState := readyState w;
                sent := sent w |}
  | transport ws state =>
      Normal {| server := server w;
                readyState := set_readyState (readyState w) ws state;
                sent := sent w |}
  end.

Fixpoint run (w : World) (events : list Event) : Completion World :=
  match events with
  | [] => Normal w
  | e :: rest => w' <- step w e ;; run w' rest
  end.

Inductive reachable : World -> Prop :=
| reachable_start : reachable start
| reachable_step w e w' :
    reachable w -> step w e = Normal w' -> reachable w'.

End Router.

(** ** A reader for the client's own envelopes

    [JSON.parse] on the fragment of JSON that [BroadcastClient] emits with
    [JSON.stringify]: one object, its members strings, no white space and
    no escape sequence.  Every other text is refused, so this reader agrees
    with [JSON.parse] wherever it returns a value and on every text that is
    not JSON at all; it serves to run the server on concrete frames. *)

Module Reader.

Definition dquote : ascii := ascii_of_nat 34.
Definition backslash : ascii := ascii_of_nat 92.

(** The characters up to the closing quote, and what follows it. *)
Fixpoint read_chars (s : string) : option (string * string) :=
  match s with
  | EmptyString => None
  | String c rest =>
      if Ascii.eqb c dquote then Some (EmptyString, rest)
      else if Ascii.eqb c backslash || (nat_of_ascii c <? 32) then None
      else match read_chars rest with
           | Some (body, rest') => Some (String c body, rest')
           | None => None
           end
  end.

Definition read_string (s : string) : option (string * string) :=
  match s with
  | String c rest => if Ascii.eqb c dquote then read_chars rest else None
  | EmptyString => None
  end.

(** The members after the opening brace, up to the end of the text. *)
Fixpoint read_members (fuel : nat) (s : string) : option (list (string * Value)) :=
  match fuel with
  | 0 => None
  | S fuel' =>
      match read_string s with
      | Some (k, String ":" after_colon) =>
          match read_string after_colon with
          | Some (v, String "}" EmptyString) => Some [(k, Str v)]
          | Some (v, String "," more) =>
              option_map (cons (k, Str v)) (read_members fuel' more)
          | _ => None
          end
      | _ => None
      end
  end.

Fixpoint distinct_keys (ps : list (string * Value)) : bool :=
  match ps with
  | [] => true
  | (k, _) :: rest =>
      negb (existsb (fun p => String.eqb (fst p) k) rest) && distinct_keys rest
  end.

Definition parse (s : string) : option Value :=
  match s with
  | String "{" (String "}" EmptyString) => Some (Obj [])
  | String "{" rest =>
      match read_members (String.length rest) rest with
      | Some ps => if distinct_keys ps then Some (Obj ps) else None
      | None => None
      end
  | _ => None
  end.

Definition quoted (s : string) : string :=
  String dquote (s ++ String dquote EmptyString)%string.

Fixpoint members_text (ps : list (string * string)) : string :=
  match ps with
  | [] => EmptyString
  | [(k, v)] => (quoted k ++ ":" ++ quoted v)%string
  | (k, v) :: rest => (quoted k ++ ":" ++ quoted v ++ "," ++ members_text rest)%string
  end.

(** The text [JSON.stringify] gives for an object of plain strings. *)
Definition object_text (ps : list (string * string)) : string :=
  ("{" ++ members_text ps ++ "}")%string.

(** The frames [BroadcastClient] sends. *)
Definition auth_text (username : string) : string :=
  object_text [("type", "auth"); ("username", username)].

Definition private_text (recipient content : string) : string :=
  object_text [("type", "private"); ("recipient", recipient); ("content", content)].

End Reader.

(** ** Invariants of the registry and of the history *)

(** No two entries of [usernames] carry the same name. *)
Fixpoint names_distinct (m : Map) : bool :=
  match m with
  | [] => true
  | (_, v) :: rest => negb (includes (Map_values rest) v) && names_distinct rest
  end.

(** No socket has two entries in [usernames]. *)
Fixpoint keys_distinct (m : Map) : bool :=
  match m with
  | [] => true
  | (k, _) :: rest => negb (Map_has rest k) && keys_distinct rest
  end.

Record invariant (this : BroadcastServer) : Prop := {
  inv_keys : keys_distinct (usernames this) = true;
  inv_names : names_distinct (usernames this) = true;
  inv_history : List.length (messageHistory this) <= 100
}.

(** The sockets bound in [usernames] are all in [clients]: no socket that
    went through [close] or [error] is left with a name. *)
Definition bound_sockets_live (this : BroadcastServer) : Prop :=
  forall ws, Map_has (usernames this) ws = true -> Set_has (clients this) ws = true.

(** The two replies of [handleAuth]. *)
Definition auth_error : Value :=
  Obj [("type", Str "auth_error"); ("content", Str "Username already taken")].

Definition auth_success (history : list Value) : Value :=
  Obj [("type", Str "auth_success");
       ("content", Str "Authentication successful");
       ("history", Arr history)].

(** [Authenticate(session, name)] is refused: the reply of [handleAuth] is
    the [auth_error] envelope. *)
Definition NameTaken (this : BroadcastServer) (ws : WebSocket) (name : string) : Prop :=
  snd (handleAuth this ws (Str name)) = send ws auth_error.

(** The object [handlePrivateMessage] sends. *)
Definition privateMessage (this : BroadcastServer) (ws : WebSocket)
    (data : Value) (now : string) : Value :=
  Obj [("type", Str "private");
       ("sender", Map_get (usernames this) ws);
       ("content", prop data "content");
       ("timestamp", Str now)].

(** ** Sequences of calls and of events *)

(** [Admit] for each socket in turn, on a fresh server. *)
Definition admit_all (sockets : list WebSocket) : BroadcastServer :=
  fold_left (fun this ws => fst (handleConnection this ws)) sockets constructor.

(** The [type] member of the one frame a handler has sent. *)
Definition reply_type (frames : list Frame) : Value :=
  match frames with
  | [(_, frame)] => prop frame "type"
  | _ => Undefined
  end.

(** A sequence of [Authenticate] calls, one after the other; each call is
    listed with its outcome, [true] when the reply is [auth_success]. *)
Fixpoint authenticate_all (this : BroadcastServer) (calls : list (WebSocket * string))
  : list (WebSocket * string * bool) :=
  match calls with
  | [] => []
  | (ws, name) :: rest =>
      let (this', reply) := handleAuth this ws (Str name) in
      (ws, name, StrictEquals (reply_type reply) (Str "auth_success"))
        :: authenticate_all this' rest
  end.

(** A sequence of broadcasts, each given by its content, sender and time. *)
Definition broadcast_all (this : BroadcastServer) (rs : WebSocket -> ReadyState)
    (messages : list (Value * WebSocket * string)) : BroadcastServer :=
  fold_left (fun this m =>
               match m with
               | (content, sender, now) => fst (broadcast this rs content sender now)
               end)
            messages this.

(** Socket 1 takes the name alice and disconnects; socket 2 connects and
    asks for the same name. *)
Definition reconnect_events : list Event :=
  [connection 1;
   message 1 (Reader.auth_text "alice") "2024-05-01T10:00:00.000Z";
   close 1;
   connection 2;
   message 2 (Reader.auth_text "alice") "2024-05-01T10:00:05.000Z"].

(** The same, the first socket failing instead of closing. *)
Definition reconnect_after_error_events : list Event :=
  [connection 1;
   message 1 (Reader.auth_text "alice") "2024-05-01T10:00:00.000Z";
   error 1;
   connection 2;
   message 2 (Reader.auth_text "alice") "2024-05-01T10:00:05.000Z"].

(** Socket 1 is alice and alone. *)
Definition alice_alone_events : list Event :=
  [connection 1;
   message 1 (Reader.auth_text "alice") "2024-05-01T10:00:00.000Z"].

(** Socket 1 is alice, socket 2 has connected and has no name yet. *)
Definition alice_and_guest_events : list Event :=
  [connection 1;
   message 1 (Reader.auth_text "alice") "2024-05-01T10:00:00.000Z";
   connection 2].

(** Socket 1 is bob; socket 2 writes to bob without having authenticated. *)
Definition anonymous_private_events : list Event :=
  [connection 1;
   message 1 (Reader.auth_text "bob") "2024-05-01T10:00:00.000Z";
   connection 2;
   message 2 (Reader.private_text "bob" "hi") "2024-05-01T10:00:07.000Z"].

(** The text of the [i]-th of a run of broadcasts. *)
Definition numbered (i : nat) : Value :=
  Str ("message " ++ NilEmpty.string_of_uint (Nat.to_uint i))%string.

(** The world a sequence of events leads to from [start]; [start] itself
    when a callback throws on the way. *)
Definition world_after (events : list Event) : World :=
  match run Reader.parse start events with
  | Normal w => w
  | Throw _ => start
  end.

(** ** The client *)

(** [Reader.parse], reading the three literals of JSON as well. *)
Definition parse_with_literals (s : string) : option Value :=
  if String.eqb s "null" then Some Null
  else if String.eqb s "true" then Some (Bool true)
  else if String.eqb s "false" then Some (Bool false)
  else Reader.parse s.

Definition is_object (x : Value) : bool :=
  match x with
  | Obj _ => true
  | _ => false
  end.

Module Client.

(** [c.toLowerCase()] on one character, for the letters A to Z. *)
Definition lower (c : ascii) : ascii :=
  let n := nat_of_ascii c in
  if (65 <=? n) && (n <=? 90) then ascii_of_nat (n + 32) else c.

(** [s.toLowerCase()], as far as [promptMessage] uses it, that is to
    compare the result with the word quit: the letters A to Z are lowered
    and every other character is kept, and no character outside A to Z
    lower-cases to one of q, u, i, t. *)
Fixpoint toLowerCase (s : string) : string :=
  match s with
  | EmptyString => EmptyString
  | String c rest => String (lower c) (toLowerCase rest)
  end.

(** [s.startsWith(prefix)]. *)
Definition startsWith (s prefix : string) : bool := String.prefix prefix s.

(** [s.slice(1)], on a string whose first character is in ASCII. *)
Definition slice_1 (s : string) : string :=
  match s with
  | EmptyString => EmptyString
  | String _ rest => rest
  end.

(** [s.split(sep)] for a separator of one character. *)
Fixpoint split (s : string) (sep : ascii) : list string :=
  match s with
  | EmptyString => [EmptyString]
  | String c rest =>
      if Ascii.eqb c sep then EmptyString :: split rest sep
      else match split rest sep with
           | piece :: pieces => String c piece :: pieces
           | [] => [String c EmptyString]
           end
  end.

(** [pieces.join(sep)]. *)
Definition join (pieces : list string) (sep : string) : string :=
  String.concat sep pieces.

(** What the client hands to [ws.send]: a line as it is, or
    [JSON.stringify(x)]. *)
Inductive Outgoing :=
| raw (text : string)
| json (x : Value).

Inductive Action :=
| ws_close
| ws_send (frame : Outgoing).

(** The callback [promptMessage] gives to [rl.question], on the line read. *)
Definition promptMessage (input : string) : Action :=
  if String.eqb (toLowerCase input) "quit" then ws_close
  else if startsWith input "@" then
    match split (slice_1 input) " " with
    | recipient :: messageParts =>
        ws_send (json (Obj [("type", Str "private");
                            ("recipient", Str recipient);
                            ("content", Str (join messageParts " "))]))
    | [] =>
        ws_send (json (Obj [("type", Str "private");
                            ("recipient", Undefined);
                            ("content", Str (join [] " "))]))
    end
  else ws_send (raw input).

(** The callback [handleAuthRequest] gives to [rl.question]: the new value
    of [this.username] and the frame sent. *)
Definition handleAuthRequest (username : string) : string * Outgoing :=
  (username, json (Obj [("type", Str "auth"); ("username", Str username)])).

(** [payload] is the text the server receives for [frame]: the line itself,
    or a text written by [JSON.stringify], which [JSON.parse] reads back as
    the tree it denotes. *)
Definition carries (JSON_parse : string -> option Value) (payload : string)
    (frame : Outgoing) : Prop :=
  match frame with
  | raw text => payload = text
  | json x => JSON_parse payload = Some (JSON_stringify x)
  end.

(** What the [message] callback of [connect] does besides computing. *)
Inductive Callback := username_callback | message_callback.

Inductive Effect :=
| console_log (args : list Value)
| rl_question (callback : Callback).

(** The effects of a run, in order, and the exception that ended it. *)
Definition Run : Type := list Effect * option Exception.

Definition and_then (a b : Run) : Run :=
  match snd a with
  | Some e => a
  | None => (fst a ++ fst b, snd b)
  end.

Section Console.

(** The three template literals with [toLocaleTimeString], as functions of
    the sender, the timestamp and the content they interpolate: the line for
    a private message, for a broadcast, and for an entry of the history.
    Interpolation converts each value to a string, which throws a
    [TypeError] on an object without a usable [toString] or [valueOf]; the
    server relays such values as it got them. *)
Variable private_line : Value -> Value -> Value -> Completion string.
Variable broadcast_line : Value -> Value -> Value -> Completion string.
Variable history_line : Value -> Value -> Value -> Completion string.

Definition newline : string := String (ascii_of_nat 10) EmptyString.

(** [history.forEach(msg => console.log(...))]: reading a member of [null]
    throws, and so does a template that cannot be built; the entries after
    it are not reached. *)
Fixpoint forEach_history (entries : list Value) : Run :=
  match entries with
  | [] => ([], None)
  | msg :: rest =>
      match msg with
      | Undefined | Null => ([], Some TypeError)
      | _ =>
          match history_line (prop msg "sender") (prop msg "timestamp")
                             (prop msg "content") with
          | Normal line =>
              and_then ([console_log [Str line]], None) (forEach_history rest)
          | Throw e => ([], Some e)
          end
      end
  end.

(** [showMessageHistory]: [history?.length] is the length of an array or of
    a string, the [length] member of an object, and [undefined] otherwise;
    only an array has [forEach]. *)
Definition showMessageHistory (history : Value) : Run :=
  let shown :=
    match history with
    | Arr entries => negb (List.length entries =? 0)
    | Str text => negb (String.eqb text "")
    | Obj members => truthy (own_property members "length")
    | _ => false
    end in
  if shown then
    and_then
      ([console_log [Str (newline ++ "=== Recent Messages ===")%string]], None)
      (match history with
       | Arr entries =>
           and_then (forEach_history entries)
                    ([console_log [Str ("==================" ++ newline)%string]],
                     None)
       | _ => ([], Some TypeError)
       end)
  else ([], None).

(** The [message] callback of [connect], on [data = JSON.parse(message)]. *)
Definition onMessage (data : Value) : Run :=
  match get data "type" with
  | Throw e => ([], Some e)
  | Normal data_type =>
      if StrictEquals data_type (Str "auth_request") then
        ([rl_question username_callback], None)
      else if StrictEquals data_type (Str "auth_success") then
        and_then ([console_log [prop data "content"]], None)
          (and_then (showMessageHistory (prop data "history"))
                    ([rl_question message_callback], None))
      else if StrictEquals data_type (Str "auth_error") then
        ([console_log [Str "Error:"; prop data "content"];
          rl_question username_callback], None)
      else if StrictEquals data_type (Str "private") then
        match private_line (prop data "sender") (prop data "timestamp")
                           (prop data "content") with
        | Normal line =>
            ([console_log [Str line]; rl_question message_callback], None)
        | Throw e => ([], Some e)
        end
      else if StrictEquals data_type (Str "broadcast") then
        match broadcast_line (prop data "sender") (prop data "timestamp")
                             (prop data "content") with
        | Normal line =>
            ([console_log [Str line]; rl_question message_callback], None)
        | Throw e => ([], Some e)
        end
      else ([], None)
  end.

End Console.

(** A run that, when it ends without an exception, ends by asking the user
    a question. *)
Definition asks_again (run : Run) : Prop :=
  snd run = None ->
  exists effects callback, fst run = effects ++ [rl_question callback].

(** A way of writing the three console lines, to run the client on: a line
    for a sender and a content that are strings, a [TypeError] otherwise. *)
Definition plain_line (sender timestamp content : Value) : Completion string :=
  match sender, content with
  | Str s, Str c => Normal (s ++ ": " ++ c)%string
  | _, _ => Throw TypeError
  end.

End Client.

(** The five kinds of frame the client's [switch] has a case for. *)
Definition known_type (frame : Value) : bool :=
  existsb (StrictEquals (prop frame "type"))
          [Str "auth_request"; Str "auth_success"; Str "auth_error";
           Str "private"; Str "broadcast"].

(** A frame the client has a case for and on which its callback, if it
    ends without an exception, ends by asking the user again, whatever the
    console lines are. *)
Definition taken_by_client (frame : Value) : Prop :=
  known_type frame = true
  /\ forall private_line broadcast_line history_line,
       Client.asks_again
         (Client.onMessage private_line broadcast_line history_line frame).

(** Socket 1 takes the name alice and disconnects; socket 2 connects, takes
    the name bob and writes to alice. *)
Definition departed_recipient_events : list Event :=
  [connection 1;
   message 1 (Reader.auth_text "alice") "2024-05-01T10:00:00.000Z";
   close 1;
   connection 2;
   message 2 (Reader.auth_text "bob") "2024-05-01T10:00:05.000Z";
   message 2 (Reader.private_text "alice" "secret") "2024-05-01T10:00:11.000Z"].

(** ** Values and containers *)

#[local] Opaque isNaN isZero isInfinite.

Example parse_auth_text :
  Reader.parse (Reader.auth_text "alice")
  = Some (Obj [("type", Str "auth"); ("username", Str "alice")]).
Proof. reflexivity. Qed.

Example parse_plain_text : Reader.parse "hello everyone" = None.
Proof. reflexivity. Qed.

Lemma StrictEquals_Str v name : StrictEquals v (Str name) = true <-> v = Str name.
Proof.
  destruct v; simpl; split; try discriminate.
  - intros H. apply String.eqb_eq in H. now subst.
  - intros H. injection H as ->. apply String.eqb_refl.
Qed.

Lemma SameValueZero_Str v name : SameValueZero v (Str name) = true <-> v = Str name.
Proof.
  destruct v; try exact (StrictEquals_Str _ name).
Qed.

Lemma StrictEquals_sym x y : StrictEquals x y = StrictEquals y x.
Proof.
  destruct x, y; cbn [StrictEquals]; try reflexivity.
  - now destruct b, b0.
  - rewrite (Z.eqb_sym bits bits0), (andb_comm (isZero bits)).
    now rewrite (andb_comm (negb (isNaN bits))).
  - apply String.eqb_sym.
Qed.

Lemma SameValueZero_sym x y : SameValueZero x y = SameValueZero y x.
Proof.
  destruct x, y; cbn [SameValueZero StrictEquals]; try reflexivity.
  - now destruct b, b0.
  - rewrite (Z.eqb_sym bits bits0), (andb_comm (isZero bits)).
    rewrite (andb_comm (negb (isNaN bits))).
    now rewrite (andb_comm (isNaN bits)).
  - apply String.eqb_sym.
Qed.

Lemma includes_Str l name : includes l (Str name) = true <-> In (Str name) l.
Proof.
  unfold includes. rewrite existsb_exists. split.
  - intros [y [Hin Heq]]. apply SameValueZero_Str in Heq. now subst.
  - intros Hin. exists (Str name). split; [assumption|].
    now apply SameValueZero_Str.
Qed.

Lemma Set_has_In s x : Set_has s x = true <-> In x s.
Proof.
  unfold Set_has. rewrite existsb_exists. split.
  - intros [y [Hin Heq]]. apply Nat.eqb_eq in Heq. now subst.
  - intros Hin. exists x. split; [assumption | apply Nat.eqb_refl].
Qed.

Lemma Set_has_add s x y : Set_has (Set_add s x) y = Set_has s y || (x =? y).
Proof.
  apply eq_true_iff_eq. rewrite orb_true_iff, !Set_has_In, Nat.eqb_eq.
  unfold Set_add. destruct (Set_has s x) eqn:Hx.
  - apply Set_has_In in Hx. split; [auto | intros [H|H]; [assumption | now subst]].
  - rewrite in_app_iff. simpl. tauto.
Qed.

Lemma Set_has_delete s x y :
  Set_has (Set_delete s x) y = Set_has s y && negb (y =? x).
Proof.
  apply eq_true_iff_eq. rewrite andb_true_iff, !Set_has_In.
  unfold Set_delete. now rewrite filter_In.
Qed.

Lemma Map_get_set_same m k v : Map_get (Map_set m k v) k = v.
Proof.
  induction m as [|[k' v'] m IH]; simpl.
  - now rewrite Nat.eqb_refl.
  - destruct (Nat.eqb_spec k' k) as [->|Hk]; simpl.
    + now rewrite Nat.eqb_refl.
    + destruct (Nat.eqb_spec k' k); [contradiction | exact IH].
Qed.

Lemma Map_get_set_other m k v k' :
  k <> k' -> Map_get (Map_set m k v) k' = Map_get m k'.
Proof.
  intros Hne. induction m as [|[a x] m IH]; simpl.
  - destruct (Nat.eqb_spec k k'); [contradiction | reflexivity].
  - destruct (Nat.eqb_spec a k) as [->|Hak]; simpl.
    + destruct (Nat.eqb_spec k k'); [contradiction | reflexivity].
    + now rewrite IH.
Qed.

Lemma Map_has_set m k v k' :
  Map_has (Map_set m k v) k' = Map_has m k' || (k =? k').
Proof.
  induction m as [|[a x] m IH]; simpl.
  - now rewrite orb_false_r.
  - destruct (Nat.eqb_spec a k) as [->|Hak]; simpl.
    + destruct (k =? k'); simpl; [reflexivity | now rewrite orb_false_r].
    + rewrite IH. now rewrite orb_assoc.
Qed.

Lemma Map_get_has m k : Map_get m k <> Undefined -> Map_has m k = true.
Proof.
  induction m as [|[a x] m IH]; simpl; [congruence|].
  destruct (a =? k); simpl; auto.
Qed.

Lemma Map_get_values m k name :
  Map_get m k = Str name -> includes (Map_values m) (Str name) = true.
Proof.
  intros H. apply includes_Str. induction m as [|[a x] m IH]; simpl in *.
  - discriminate.
  - destruct (a =? k); [left; assumption | right; auto].
Qed.

Lemma Map_values_holder m name :
  keys_distinct m = true ->
  includes (Map_values m) (Str name) = true ->
  exists k, Map_get m k = Str name.
Proof.
  intros Hk H. apply includes_Str in H.
  induction m as [|[a x] m IH]; simpl in *; [contradiction|].
  apply andb_true_iff in Hk as [Ha Hk].
  destruct H as [H|H].
  - exists a. now rewrite Nat.eqb_refl.
  - destruct (IH Hk H) as [k Hget]. exists k.
    destruct (Nat.eqb_spec a k) as [->|_]; [|assumption].
    rewrite Map_get_has in Ha; [discriminate | congruence].
Qed.

Lemma includes_cons x l v :
  includes (x :: l) v = SameValueZero x v || includes l v.
Proof. reflexivity. Qed.

Lemma includes_values_set m k v x :
  includes (Map_values (Map_set m k v)) x = true ->
  includes (Map_values m) x = true \/ SameValueZero v x = true.
Proof.
  induction m as [|[a y] m IH]; simpl Map_set; unfold Map_values in *.
  - simpl map. rewrite includes_cons, orb_true_iff. tauto.
  - destruct (a =? k); simpl map; rewrite !includes_cons, !orb_true_iff.
    + tauto.
    + intros [H|H]; [tauto|]. destruct (IH H); tauto.
Qed.

Lemma names_distinct_set m k v :
  names_distinct m = true ->
  includes (Map_values m) v = false ->
  names_distinct (Map_set m k v) = true.
Proof.
  induction m as [|[a y] m IH]; intros Hd Hv.
  - reflexivity.
  - simpl in Hd. apply andb_true_iff in Hd as [Hy Hd].
    unfold Map_values in Hv. simpl map in Hv.
    rewrite includes_cons in Hv. apply orb_false_iff in Hv as [Hyv Hv].
    simpl Map_set. destruct (a =? k); simpl.
    + unfold Map_values in *. now rewrite Hv, Hd.
    + rewrite (IH Hd Hv), andb_true_r.
      apply negb_true_iff. apply negb_true_iff in Hy.
      destruct (includes (Map_values (Map_set m k v)) y) eqn:Hin; [|reflexivity].
      apply includes_values_set in Hin as [Hin|Hin].
      * congruence.
      * rewrite SameValueZero_sym in Hin. congruence.
Qed.

Lemma keys_distinct_set m k v :
  keys_distinct m = true -> keys_distinct (Map_set m k v) = true.
Proof.
  induction m as [|[a y] m IH]; intros Hd; [reflexivity|].
  simpl in Hd. apply andb_true_iff in Hd as [Ha Hd].
  simpl Map_set. destruct (Nat.eqb_spec a k) as [E|E]; simpl.
  - subst a. now rewrite Ha, Hd.
  - rewrite Map_has_set, (IH Hd). apply negb_true_iff in Ha. rewrite Ha.
    destruct (Nat.eqb_spec k a); [congruence | reflexivity].
Qed.

(** Two entries with the same name are one entry. *)
Lemma names_distinct_holder m s1 s2 name :
  names_distinct m = true ->
  Map_get m s1 = Str name -> Map_get m s2 = Str name -> s1 = s2.
Proof.
  induction m as [|[a y] m IH]; simpl; intros Hd H1 H2; [discriminate|].
  apply andb_true_iff in Hd as [Hy Hd]. apply negb_true_iff in Hy.
  destruct (Nat.eqb_spec a s1) as [E1|E1], (Nat.eqb_spec a s2) as [E2|E2].
  - congruence.
  - subst y. apply Map_get_values in H2. congruence.
  - subst y. apply Map_get_values in H1. congruence.
  - now apply IH.
Qed.

Lemma push_history_length history m :
  List.length history <= 100 -> List.length (push_history history m) <= 100.
Proof.
  intros H. unfold push_history, shift.
  destruct (Nat.ltb_spec 100 (List.length (history ++ [m]))) as [Hlt|Hle].
  - rewrite length_app in Hlt. simpl in Hlt.
    destruct history as [|x history]; simpl in *; [lia|].
    rewrite length_app. simpl. lia.
  - exact Hle.
Qed.

(** ** The handlers keep the invariant *)

Lemma invariant_constructor : invariant constructor.
Proof. split; simpl; [reflexivity | reflexivity | lia]. Qed.

Lemma handleConnection_invariant this ws :
  invariant this -> invariant (fst (handleConnection this ws)).
Proof. intros [Hk Hn Hh]. split; assumption. Qed.

Lemma onClose_invariant this ws : invariant this -> invariant (onClose this ws).
Proof. intros [Hk Hn Hh]. split; assumption. Qed.

Lemma onError_invariant this ws : invariant this -> invariant (onError this ws).
Proof. intros [Hk Hn Hh]. split; assumption. Qed.

Lemma handleAuth_invariant this ws username :
  invariant this -> invariant (fst (handleAuth this ws username)).
Proof.
  intros [Hk Hn Hh]. unfold handleAuth.
  destruct (includes (Map_values (usernames this)) username) eqn:Hin.
  - split; assumption.
  - split; simpl.
    + now apply keys_distinct_set.
    + now apply names_distinct_set.
    + assumption.
Qed.

Lemma handlePrivateMessage_state this ws data now :
  fst (handlePrivateMessage this ws data now) = this.
Proof.
  unfold handlePrivateMessage.
  now destruct (find_recipient this (prop data "recipient")).
Qed.

Lemma broadcast_invariant this rs content sender now :
  invariant this -> invariant (fst (broadcast this rs content sender now)).
Proof.
  intros [Hk Hn Hh]. split; simpl; try assumption.
  now apply push_history_length.
Qed.

(** ** The event loop keeps the invariant *)

Section Reachability.

Variable JSON_parse : string -> option Value.

(** What a [message] callback that returns has done. *)
Lemma onMessage_Normal this rs ws payload now r :
  onMessage JSON_parse this rs ws payload now = Normal r ->
  let data := parseMessage JSON_parse payload in
  (get data "type" = Normal (Str "auth")
   /\ r = handleAuth this ws (prop data "username"))
  \/ (get data "type" <> Normal (Str "auth")
      /\ (r = handlePrivateMessage this ws data now
          \/ r = broadcast this rs (prop data "content") ws now)).
Proof.
  intros H data. unfold onMessage in H. fold data in H.
  destruct (get data "type") as [ty|e]; simpl in H; [|discriminate].
  destruct (StrictEquals ty (Str "auth")) eqn:Hauth.
  - apply StrictEquals_Str in Hauth. subst ty. left. split; congruence.
  - right. split.
    + intros E. injection E as ->. discriminate Hauth.
    + destruct (StrictEquals ty (Str "private")); injection H as <-; auto.
Qed.

Lemma onMessage_invariant this rs ws payload now r :
  invariant this ->
  onMessage JSON_parse this rs ws payload now = Normal r ->
  invariant (fst r).
Proof.
  intros Hinv H. apply onMessage_Normal in H.
  destruct H as [[_ ->]|[_ [->| ->]]].
  - now apply handleAuth_invariant.
  - now rewrite handlePrivateMessage_state.
  - now apply broadcast_invariant.
Qed.

Lemma step_invariant w e w' :
  invariant (server w) -> step JSON_parse w e = Normal w' -> invariant (server w').
Proof.
  intros Hinv H. destruct e as [ws|ws payload now|ws|ws|ws state]; simpl in H.
  - injection H as <-. exact (handleConnection_invariant _ ws Hinv).
  - destruct (onMessage JSON_parse (server w) (readyState w) ws payload now)
      as [r|x] eqn:Hr; simpl in H; [|discriminate].
    injection H as <-. simpl. eapply onMessage_invariant; eassumption.
  - injection H as <-. now apply onClose_invariant.
  - injection H as <-. now apply onError_invariant.
  - injection H as <-. assumption.
Qed.

Lemma reachable_invariant w : reachable JSON_parse w -> invariant (server w).
Proof.
  induction 1 as [|w e w' _ IH Hstep].
  - exact invariant_constructor.
  - eapply step_invariant; eassumption.
Qed.

Lemma run_reachable events : forall w w',
  reachable JSON_parse w -> run JSON_parse w events = Normal w' ->
  reachable JSON_parse w'.
Proof.
  induction events as [|e events IH]; intros w w' Hw H; simpl in H.
  - now injection H as <-.
  - destruct (step JSON_parse w e) as [w1|x] eqn:Hstep; simpl in H; [|discriminate].
    apply (IH w1); [|assumption]. eapply reachable_step; eassumption.
Qed.

End Reachability.

Lemma handleConnection_admits this ws :
  Set_has (clients (fst (handleConnection this ws))) ws = true.
Proof. simpl. now rewrite Set_has_add, Nat.eqb_refl, orb_true_r. Qed.

Lemma onClose_removes this ws : Set_has (clients (onClose this ws)) ws = false.
Proof. simpl. now rewrite Set_has_delete, Nat.eqb_refl, andb_false_r. Qed.

Lemma onError_removes this ws : Set_has (clients (onError this ws)) ws = false.
Proof. simpl. now rewrite Set_has_delete, Nat.eqb_refl, andb_false_r. Qed.

Lemma usernames_handleConnection this ws :
  usernames (fst (handleConnection this ws)) = usernames this.
Proof. reflexivity. Qed.

Lemma usernames_onClose this ws : usernames (onClose this ws) = usernames this.
Proof. reflexivity. Qed.

Lemma usernames_onError this ws : usernames (onError this ws) = usernames this.
Proof. reflexivity. Qed.

Lemma usernames_broadcast this rs content sender now :
  usernames (fst (broadcast this rs content sender now)) = usernames this.
Proof. reflexivity. Qed.

Lemma broadcastMessage_usernames this this' content sender now :
  usernames this' = usernames this ->
  broadcastMessage this' content sender now = broadcastMessage this content sender now.
Proof. intros H. unfold broadcastMessage. now rewrite H. Qed.

(** [handleAuth], read off its test. *)
Lemma handleAuth_taken this ws username :
  includes (Map_values (usernames this)) username = true ->
  handleAuth this ws username = (this, send ws auth_error).
Proof. intros H. unfold handleAuth. now rewrite H. Qed.

Lemma handleAuth_free this ws username :
  includes (Map_values (usernames this)) username = false ->
  handleAuth this ws username
  = ({| clients := clients this;
        messageHistory := messageHistory this;
        usernames := Map_set (usernames this) ws username |},
     send ws (auth_success (slice_last 10 (messageHistory this)))).
Proof. intros H. unfold handleAuth. now rewrite H. Qed.

Lemma NameTaken_includes this ws name :
  NameTaken this ws name <-> includes (Map_values (usernames this)) (Str name) = true.
Proof.
  unfold NameTaken, handleAuth.
  destruct (includes (Map_values (usernames this)) (Str name)); simpl.
  - split; reflexivity.
  - split; discriminate.
Qed.

(** ** The registry *)

(** C1: the [close] and [error] callbacks take the socket out of [clients]
    and leave its entry in [usernames]: after socket 1 has authenticated as
    alice and disconnected (or failed), socket 2 asking for alice is
    answered [auth_error] and stays unnamed, while the departed socket 1
    still holds the name. *)
Theorem name_not_released_on_close :
  (run Reader.parse start reconnect_events
     = Normal (world_after reconnect_events)
   /\ clients (server (world_after reconnect_events)) = [2]
   /\ usernames (server (world_after reconnect_events)) = [(1, Str "alice")]
   /\ last (sent (world_after reconnect_events)) (0, Undefined)
      = (2, JSON_stringify auth_error))
  /\ (run Reader.parse start reconnect_after_error_events
        = Normal (world_after reconnect_after_error_events)
      /\ clients (server (world_after reconnect_after_error_events)) = [2]
      /\ usernames (server (world_after reconnect_after_error_events))
         = [(1, Str "alice")]
      /\ last (sent (world_after reconnect_after_error_events)) (0, Undefined)
         = (2, JSON_stringify auth_error)).
Proof. repeat split; reflexivity. Qed.

(** C2, as stated, fails: on a fresh server with sockets 1 and 2 admitted,
    the calls Authenticate(1, alice), Authenticate(1, bob),
    Authenticate(2, alice) all succeed, so two sessions succeed with the
    name alice and none of them was removed. *)
Lemma two_sessions_succeed_with_one_name :
  ~ (forall (admitted : list WebSocket) (calls : list (WebSocket * string))
            (name : string) (s1 s2 : WebSocket),
        In (s1, name, true) (authenticate_all (admit_all admitted) calls) ->
        In (s2, name, true) (authenticate_all (admit_all admitted) calls) ->
        s1 = s2).
Proof.
  intros H.
  specialize (H [1; 2] [(1, "alice"); (1, "bob"); (2, "alice")] "alice" 1 2).
  assert (E : 1 = 2); [|discriminate E].
  apply H.
  - left. reflexivity.
  - right. right. left. reflexivity.
Qed.

(** C2, amended: in every reachable state a name held by a live session is
    held by that session only, and every [handleAuth] call for that name,
    whoever makes it, is answered [auth_error] and changes nothing. *)
Theorem name_held_by_one_session
    (JSON_parse : string -> option Value) (w : World)
    (holder : WebSocket) (name : string) :
  reachable JSON_parse w ->
  Set_has (clients (server w)) holder = true ->
  Map_get (usernames (server w)) holder = Str name ->
  (forall other, Map_get (usernames (server w)) other = Str name -> other = holder)
  /\ (forall ws, NameTaken (server w) ws name
                 /\ handleAuth (server w) ws (Str name)
                    = (server w, send ws auth_error)).
Proof.
  intros Hreach _ Hholder. apply reachable_invariant in Hreach.
  destruct Hreach as [_ Hnames _]. split.
  - intros other Hother. eapply names_distinct_holder; eassumption.
  - intros ws. apply Map_get_values in Hholder. split.
    + now apply NameTaken_includes.
    + now apply handleAuth_taken.
Qed.

Lemma alice_and_guest_reachable :
  reachable Reader.parse (world_after alice_and_guest_events).
Proof.
  apply (run_reachable Reader.parse alice_and_guest_events start).
  - apply reachable_start.
  - reflexivity.
Qed.

Lemma name_held_by_one_session_witness :
  (forall other,
      Map_get (usernames (server (world_after alice_and_guest_events))) other
      = Str "alice" -> other = 1)
  /\ (forall ws,
         NameTaken (server (world_after alice_and_guest_events)) ws "alice"
         /\ handleAuth (server (world_after alice_and_guest_events)) ws (Str "alice")
            = (server (world_after alice_and_guest_events), send ws auth_error)).
Proof.
  apply (name_held_by_one_session Reader.parse
           (world_after alice_and_guest_events) 1 "alice").
  - exact alice_and_guest_reachable.
  - reflexivity.
  - reflexivity.
Defined.

(** C3, as stated, fails: socket 1 alone is connected and holds alice; its
    own call [handleAuth] for alice is answered [auth_error] although no
    other session holds the name. *)
Lemma own_name_is_taken :
  run Reader.parse start alice_alone_events
  = Normal (world_after alice_alone_events)
  /\ ~ (NameTaken (server (world_after alice_alone_events)) 1 "alice" <->
        exists other,
          other <> 1
          /\ Set_has (clients (server (world_after alice_alone_events))) other = true
          /\ Map_get (usernames (server (world_after alice_alone_events))) other
             = Str "alice").
Proof.
  split; [reflexivity|].
  intros [Hfwd _].
  destruct Hfwd as [other [Hne [_ Hget]]]; [reflexivity|].
  cbn in Hget. destruct other as [|[|other]]; cbn in Hget;
    try discriminate Hget. now apply Hne.
Qed.

(** C3, amended: in a reachable state where no departed socket is left with
    a name, [handleAuth ws name] is answered [auth_error] exactly when some
    live session, [ws] itself included, holds [name]; it then leaves the
    server as it is.  Otherwise it binds [name] to [ws], in place of the
    name [ws] had if any, and answers [auth_success] with the last ten
    entries of the history. *)
Theorem handleAuth_NameTaken_iff
    (JSON_parse : string -> option Value) (w : World)
    (ws : WebSocket) (name : string) :
  reachable JSON_parse w ->
  bound_sockets_live (server w) ->
  (NameTaken (server w) ws name <->
   exists holder, Set_has (clients (server w)) holder = true
                  /\ Map_get (usernames (server w)) holder = Str name)
  /\ (NameTaken (server w) ws name ->
      handleAuth (server w) ws (Str name) = (server w, send ws auth_error))
  /\ (~ NameTaken (server w) ws name ->
      handleAuth (server w) ws (Str name)
      = ({| clients := clients (server w);
            messageHistory := messageHistory (server w);
            usernames := Map_set (usernames (server w)) ws (Str name) |},
         send ws (auth_success (slice_last 10 (messageHistory (server w)))))
      /\ Map_get (usernames (fst (handleAuth (server w) ws (Str name)))) ws
         = Str name).
Proof.
  intros Hreach Hlive. apply reachable_invariant in Hreach.
  destruct Hreach as [Hkeys _ _]. repeat split.
  - intros Htaken. apply NameTaken_includes in Htaken.
    destruct (Map_values_holder _ _ Hkeys Htaken) as [holder Hget].
    exists holder. split; [|assumption].
    apply Hlive, Map_get_has. rewrite Hget. discriminate.
  - intros [holder [_ Hget]]. apply NameTaken_includes.
    eapply Map_get_values; eassumption.
  - intros Htaken. apply handleAuth_taken.
    exact (proj1 (NameTaken_includes _ ws _) Htaken).
  - apply handleAuth_free.
    destruct (includes (Map_values (usernames (server w))) (Str name)) eqn:E;
      [|reflexivity].
    exfalso. apply H. now apply NameTaken_includes.
  - rewrite handleAuth_free; [apply Map_get_set_same|].
    destruct (includes (Map_values (usernames (server w))) (Str name)) eqn:E;
      [|reflexivity].
    exfalso. apply H. now apply NameTaken_includes.
Qed.

Lemma alice_and_guest_live :
  bound_sockets_live (server (world_after alice_and_guest_events)).
Proof.
  intros ws. cbn. destruct ws as [|[|ws]]; cbn; intros H;
    solve [discriminate H | reflexivity].
Qed.

Lemma handleAuth_NameTaken_iff_witness :
  (NameTaken (server (world_after alice_and_guest_events)) 2 "bob" <->
   exists holder,
     Set_has (clients (server (world_after alice_and_guest_events))) holder = true
     /\ Map_get (usernames (server (world_after alice_and_guest_events))) holder
        = Str "bob")
  /\ (NameTaken (server (world_after alice_and_guest_events)) 2 "bob" ->
      handleAuth (server (world_after alice_and_guest_events)) 2 (Str "bob")
      = (server (world_after alice_and_guest_events), send 2 auth_error))
  /\ (~ NameTaken (server (world_after alice_and_guest_events)) 2 "bob" ->
      handleAuth (server (world_after alice_and_guest_events)) 2 (Str "bob")
      = ({| clients := clients (server (world_after alice_and_guest_events));
            messageHistory :=
              messageHistory (server (world_after alice_and_guest_events));
            usernames :=
              Map_set (usernames (server (world_after alice_and_guest_events)))
                      2 (Str "bob") |},
         send 2 (auth_success
                   (slice_last 10
                      (messageHistory
                         (server (world_after alice_and_guest_events))))))
      /\ Map_get (usernames
                    (fst (handleAuth (server (world_after alice_and_guest_events))
                                     2 (Str "bob")))) 2
         = Str "bob").
Proof.
  apply (handleAuth_NameTaken_iff Reader.parse
           (world_after alice_and_guest_events) 2 "bob").
  - exact alice_and_guest_reachable.
  - exact alice_and_guest_live.
Defined.

(** C4, as stated, fails: socket 1 holds alice; its own later frame
    [{type: auth, username: bob}] is answered [auth_success] and replaces
    the name, with no [close] and no [error] in between. *)
Lemma own_auth_replaces_name :
  ~ (forall (w w' : World) (e : Event) (ws : WebSocket) (name : string),
        reachable Reader.parse w ->
        step Reader.parse w e = Normal w' ->
        e <> close ws -> e <> error ws ->
        Map_get (usernames (server w)) ws = Str name ->
        Map_get (usernames (server w')) ws = Str name).
Proof.
  intros H.
  specialize (H (world_after alice_alone_events)
                (world_after (alice_alone_events
                              ++ [message 1 (Reader.auth_text "bob")
                                          "2024-05-01T10:00:09.000Z"]))
                (message 1 (Reader.auth_text "bob") "2024-05-01T10:00:09.000Z")
                1 "alice").
  assert (E : Str "bob" = Str "alice"); [|discriminate E].
  apply H.
  - apply (run_reachable Reader.parse alice_alone_events start);
      [apply reachable_start | reflexivity].
  - reflexivity.
  - discriminate.
  - discriminate.
  - reflexivity.
Qed.

(** C4, amended: whatever event the server handles, short of the [close] or
    [error] of the socket itself, the name bound to a socket stays as it
    is, unless the event is a frame of type [auth] from that very socket
    asking for a name nobody holds, which then becomes its name. *)
Theorem binding_persists
    (JSON_parse : string -> option Value) (w w' : World)
    (e : Event) (ws : WebSocket) :
  step JSON_parse w e = Normal w' ->
  e <> close ws -> e <> error ws ->
  Map_get (usernames (server w')) ws = Map_get (usernames (server w)) ws
  \/ exists payload now,
       e = message ws payload now
       /\ get (parseMessage JSON_parse payload) "type" = Normal (Str "auth")
       /\ includes (Map_values (usernames (server w)))
                   (prop (parseMessage JSON_parse payload) "username") = false
       /\ Map_get (usernames (server w')) ws
          = prop (parseMessage JSON_parse payload) "username".
Proof.
  intros Hstep _ _.
  destruct e as [ws0|ws0 payload now|ws0|ws0|ws0 state]; simpl in Hstep;
    try (injection Hstep as <-; left; reflexivity).
  destruct (onMessage JSON_parse (server w) (readyState w) ws0 payload now)
    as [r|x] eqn:Hr; simpl in Hstep; [|discriminate].
  injection Hstep as <-. simpl.
  apply onMessage_Normal in Hr. destruct Hr as [[Hty ->]|[_ [->| ->]]].
  - destruct (includes (Map_values (usernames (server w)))
                       (prop (parseMessage JSON_parse payload) "username")) eqn:Hin.
    + left. now rewrite handleAuth_taken.
    + rewrite (handleAuth_free _ _ _ Hin). simpl.
      destruct (Nat.eq_dec ws0 ws) as [->|Hne].
      * right. exists payload, now. repeat split; try assumption.
        apply Map_get_set_same.
      * left. now apply Map_get_set_other.
  - left. now rewrite handlePrivateMessage_state.
  - left. reflexivity.
Qed.

Lemma binding_persists_witness :
  Map_get (usernames
             (server (world_after
                        (alice_and_guest_events
                         ++ [message 2 (Reader.auth_text "bob")
                                     "2024-05-01T10:00:09.000Z"])))) 1
  = Map_get (usernames (server (world_after alice_and_guest_events))) 1
  \/ exists payload now,
       message 2 (Reader.auth_text "bob") "2024-05-01T10:00:09.000Z"
       = message 1 payload now
       /\ get (parseMessage Reader.parse payload) "type" = Normal (Str "auth")
       /\ includes (Map_values
                      (usernames (server (world_after alice_and_guest_events))))
                   (prop (parseMessage Reader.parse payload) "username") = false
       /\ Map_get (usernames
                     (server (world_after
                                (alice_and_guest_events
                                 ++ [message 2 (Reader.auth_text "bob")
                                             "2024-05-01T10:00:09.000Z"])))) 1
          = prop (parseMessage Reader.parse payload) "username".
Proof.
  apply (binding_persists Reader.parse
           (world_after alice_and_guest_events)
           (world_after (alice_and_guest_events
                         ++ [message 2 (Reader.auth_text "bob")
                                     "2024-05-01T10:00:09.000Z"]))
           (message 2 (Reader.auth_text "bob") "2024-05-01T10:00:09.000Z") 1).
  - reflexivity.
  - discriminate.
  - discriminate.
Defined.

(** ** The router *)

(** C5: [handlePrivateMessage] reads the sender's name with
    [usernames.get(ws)] and, unlike [broadcast], has no [|| 'Anonymous']:
    socket 2, not authenticated, writes to bob; the two frames delivered
    carry no [sender] member at all. *)
Theorem private_from_unauthenticated_has_no_sender :
  run Reader.parse start anonymous_private_events
  = Normal (world_after anonymous_private_events)
  /\ Map_has (usernames (server (world_after anonymous_private_events))) 2 = false
  /\ skipn 3 (sent (world_after anonymous_private_events))
     = [(1, Obj [("type", Str "private");
                 ("content", Str "hi");
                 ("timestamp", Str "2024-05-01T10:00:07.000Z")]);
        (2, Obj [("type", Str "private");
                 ("content", Str "hi");
                 ("timestamp", Str "2024-05-01T10:00:07.000Z")])]
  /\ map (fun frame => prop (snd frame) "sender")
         (skipn 3 (sent (world_after anonymous_private_events)))
     = [Undefined; Undefined]
  /\ prop (broadcastMessage (server (world_after anonymous_private_events))
                            (Str "hi") 2 "2024-05-01T10:00:07.000Z") "sender"
     = Str "Anonymous".
Proof. repeat split; reflexivity. Qed.

Lemma find_recipient_holder this recipient name :
  names_distinct (usernames this) = true ->
  Map_get (usernames this) recipient = Str name ->
  find_recipient this (Str name) = Some recipient.
Proof.
  unfold find_recipient. generalize (usernames this). intros m.
  induction m as [|[a y] m IH]; simpl; intros Hd Hget; [discriminate|].
  apply andb_true_iff in Hd as [Hy Hd].
  destruct (StrictEquals y (Str name)) eqn:Heq.
  - apply StrictEquals_Str in Heq. subst y. simpl.
    destruct (Nat.eqb_spec a recipient) as [->|Hne]; [reflexivity|].
    apply Map_get_values in Hget. apply negb_true_iff in Hy. congruence.
  - destruct (Nat.eqb_spec a recipient) as [->|Hne].
    + subst y. simpl in Heq. now rewrite String.eqb_refl in Heq.
    + now apply IH.
Qed.

Lemma find_recipient_none this name :
  keys_distinct (usernames this) = true ->
  (forall ws, Map_get (usernames this) ws <> Str name) ->
  find_recipient this (Str name) = None.
Proof.
  intros Hk Hnone. unfold find_recipient.
  destruct (find (fun entry => StrictEquals (snd entry) (Str name)) (usernames this))
    as [[r v]|] eqn:Hfind; [|reflexivity].
  exfalso. apply find_some in Hfind as [Hin Heq]. simpl in Heq.
  apply StrictEquals_Str in Heq. subst v.
  assert (Hinc : includes (Map_values (usernames this)) (Str name) = true).
  { apply includes_Str. unfold Map_values.
    change (Str name) with (snd (r, Str name)). now apply in_map. }
  destruct (Map_values_holder _ _ Hk Hinc) as [k Hget].
  exact (Hnone k Hget).
Qed.

(** A frame of type [private] whose [recipient] is a name, read on the
    registry.  If a socket has that name in [usernames], the message
    callback sends the private envelope to that socket and then to the
    sender, two frames and no more; if no entry of [usernames] has it, the
    callback sends nothing at all.  The server is left as it was in both
    cases. *)
Theorem private_message_delivery
    (JSON_parse : string -> option Value) (w : World)
    (ws : WebSocket) (payload now name : string) :
  reachable JSON_parse w ->
  get (parseMessage JSON_parse payload) "type" = Normal (Str "private") ->
  prop (parseMessage JSON_parse payload) "recipient" = Str name ->
  (forall recipient,
      Set_has (clients (server w)) recipient = true ->
      Map_get (usernames (server w)) recipient = Str name ->
      onMessage JSON_parse (server w) (readyState w) ws payload now
      = Normal (server w,
                [(recipient,
                  JSON_stringify
                    (privateMessage (server w) ws
                                    (parseMessage JSON_parse payload) now));
                 (ws,
                  JSON_stringify
                    (privateMessage (server w) ws
                                    (parseMessage JSON_parse payload) now))]))
  /\ ((forall holder, Map_get (usernames (server w)) holder <> Str name) ->
      onMessage JSON_parse (server w) (readyState w) ws payload now
      = Normal (server w, [])).
Proof.
  intros Hreach Hty Hrec. apply reachable_invariant in Hreach.
  destruct Hreach as [Hkeys Hnames _].
  unfold onMessage. rewrite Hty. cbn [bind StrictEquals].
  change (String.eqb "private" "auth") with false.
  change (String.eqb "private" "private") with true. cbv iota.
  unfold handlePrivateMessage. rewrite Hrec. split.
  - intros recipient _ Hget.
    now rewrite (find_recipient_holder _ recipient name Hnames Hget).
  - intros Hnone. now rewrite (find_recipient_none _ name Hkeys Hnone).
Qed.

Lemma private_message_delivery_witness :
  onMessage Reader.parse (server (world_after alice_and_guest_events))
            (readyState (world_after alice_and_guest_events)) 2
            (Reader.private_text "alice" "secret") "2024-05-01T10:00:11.000Z"
  = Normal (server (world_after alice_and_guest_events),
            [(1, Obj [("type", Str "private");
                      ("content", Str "secret");
                      ("timestamp", Str "2024-05-01T10:00:11.000Z")]);
             (2, Obj [("type", Str "private");
                      ("content", Str "secret");
                      ("timestamp", Str "2024-05-01T10:00:11.000Z")])])
  /\ onMessage Reader.parse (server (world_after alice_and_guest_events))
               (readyState (world_after alice_and_guest_events)) 2
               (Reader.private_text "carol" "secret") "2024-05-01T10:00:11.000Z"
     = Normal (server (world_after alice_and_guest_events), []).
Proof.
  split.
  - apply (proj1 (private_message_delivery Reader.parse
                    (world_after alice_and_guest_events) 2
                    (Reader.private_text "alice" "secret")
                    "2024-05-01T10:00:11.000Z" "alice"
                    alice_and_guest_reachable eq_refl eq_refl) 1);
      reflexivity.
  - apply (proj2 (private_message_delivery Reader.parse
                    (world_after alice_and_guest_events) 2
                    (Reader.private_text "carol" "secret")
                    "2024-05-01T10:00:11.000Z" "carol"
                    alice_and_guest_reachable eq_refl eq_refl)).
    intros holder. cbn. destruct holder as [|[|holder]]; cbn; discriminate.
Defined.

(** C6: when the only holder of the recipient name has gone, no live
    session holds the name and still the frame is not dropped.  Socket 1
    took alice and closed; [clients] is down to socket 2, which is bob.
    Its private frame for alice makes the server call [send] on the closed
    socket 1 and echo the envelope to socket 2: two frames, where none is
    due.  The entry of socket 1 left in [usernames] by the [close] callback
    is what [find] stops at. *)
Theorem private_message_after_holder_left :
  run Reader.parse start departed_recipient_events
  = Normal (world_after departed_recipient_events)
  /\ clients (server (world_after departed_recipient_events)) = [2]
  /\ usernames (server (world_after departed_recipient_events))
     = [(1, Str "alice"); (2, Str "bob")]
  /\ skipn 4 (sent (world_after departed_recipient_events))
     = [(1, Obj [("type", Str "private");
                 ("sender", Str "bob");
                 ("content", Str "secret");
                 ("timestamp", Str "2024-05-01T10:00:11.000Z")]);
        (2, Obj [("type", Str "private");
                 ("sender", Str "bob");
                 ("content", Str "secret");
                 ("timestamp", Str "2024-05-01T10:00:11.000Z")])].
Proof. repeat split; reflexivity. Qed.

Lemma ReadyState_eqb_OPEN state : ReadyState_eqb state OPEN = true <-> state = OPEN.
Proof. destruct state; simpl; split; congruence. Qed.

(** C7: the frames [broadcast] sends are exactly one serialized envelope for
    each socket that is in [clients], is not the sender and whose
    [readyState] is [OPEN]; a socket in another state, a socket no longer in
    [clients] and the sender get none. *)
Theorem broadcast_recipients
    (this : BroadcastServer) (rs : WebSocket -> ReadyState)
    (content : Value) (sender : WebSocket) (now : string)
    (client : WebSocket) (frame : Value) :
  In (client, frame) (snd (broadcast this rs content sender now))
  <-> (Set_has (clients this) client = true
       /\ client <> sender
       /\ rs client = OPEN
       /\ frame = JSON_stringify (broadcastMessage this content sender now)).
Proof.
  unfold broadcast. cbn [snd]. rewrite in_flat_map. split.
  - intros [c [Hin Hsend]].
    destruct (Nat.eqb_spec c sender) as [Heq|Hne]; cbn [negb andb] in Hsend;
      [contradiction|].
    destruct (ReadyState_eqb (rs c) OPEN) eqn:Hopen; [|contradiction].
    destruct Hsend as [Hsend|[]]. injection Hsend as -> <-.
    repeat split; try assumption.
    + now apply Set_has_In.
    + now apply ReadyState_eqb_OPEN.
  - intros [Hin [Hne [Hopen ->]]]. exists client. split.
    + now apply Set_has_In.
    + destruct (Nat.eqb_spec client sender) as [Heq|_]; [contradiction|].
      rewrite Hopen. left. reflexivity.
Qed.

(** C10: a socket that is in [clients] and open gets the envelope of a
    broadcast sent by another socket although it has no entry in
    [usernames]. *)
Theorem broadcast_reaches_unauthenticated
    (this : BroadcastServer) (rs : WebSocket -> ReadyState)
    (content : Value) (sender : WebSocket) (now : string) (client : WebSocket) :
  Set_has (clients this) client = true ->
  Map_has (usernames this) client = false ->
  rs client = OPEN ->
  client <> sender ->
  In (client, JSON_stringify (broadcastMessage this content sender now))
     (snd (broadcast this rs content sender now)).
Proof.
  intros Hin _ Hopen Hne. unfold broadcast. cbn [snd].
  apply in_flat_map. exists client. split; [now apply Set_has_In|].
  destruct (Nat.eqb_spec client sender) as [Heq|_]; [contradiction|].
  rewrite Hopen. left. reflexivity.
Qed.

Lemma broadcast_reaches_unauthenticated_witness :
  In (2, JSON_stringify
           (broadcastMessage (server (world_after alice_and_guest_events))
                             (Str "hi") 1 "2024-05-01T10:00:13.000Z"))
     (snd (broadcast (server (world_after alice_and_guest_events))
                     (readyState (world_after alice_and_guest_events))
                     (Str "hi") 1 "2024-05-01T10:00:13.000Z")).
Proof.
  apply (broadcast_reaches_unauthenticated
           (server (world_after alice_and_guest_events))
           (readyState (world_after alice_and_guest_events))
           (Str "hi") 1 "2024-05-01T10:00:13.000Z" 2).
  - reflexivity.
  - reflexivity.
  - reflexivity.
  - discriminate.
Defined.

Lemma push_history_last history m :
  exists older, push_history history m = older ++ [m].
Proof.
  unfold push_history, shift.
  destruct (100 <? List.length (history ++ [m])) eqn:Hfull.
  - destruct history as [|x history]; [discriminate Hfull|].
    exists history. reflexivity.
  - exists history. reflexivity.
Qed.

(** A frame that is JSON but no object has no members to read: its [type]
    is [undefined], so it is broadcast with [undefined] content; on the
    frame [null] the read of [data.type] throws. *)
Lemma onMessage_null JSON_parse this rs ws payload now :
  JSON_parse payload = Some Null ->
  onMessage JSON_parse this rs ws payload now = Throw TypeError.
Proof. intros H. unfold onMessage, parseMessage. now rewrite H. Qed.

(** When [JSON.parse] throws on a payload, the message callback returns
    normally and does what [broadcast] does with the whole payload as
    content: the envelope pushed last on the history carries that content
    and the time of processing, and the frames sent are those of
    [broadcast].  A frame that parses to an object with [type] broadcast
    and that same [content] has the same effect. *)
Theorem undecodable_payload_is_broadcast
    (JSON_parse : string -> option Value)
    (this : BroadcastServer) (rs : WebSocket -> ReadyState)
    (ws : WebSocket) (payload now : string) :
  JSON_parse payload = None ->
  onMessage JSON_parse this rs ws payload now
  = Normal (broadcast this rs (Str payload) ws now)
  /\ (exists older,
         messageHistory (fst (broadcast this rs (Str payload) ws now))
         = older ++ [broadcastMessage this (Str payload) ws now])
  /\ prop (broadcastMessage this (Str payload) ws now) "content" = Str payload
  /\ prop (broadcastMessage this (Str payload) ws now) "timestamp" = Str now
  /\ (forall envelope members,
         JSON_parse envelope = Some (Obj members) ->
         own_property members "type" = Str "broadcast" ->
         own_property members "content" = Str payload ->
         onMessage JSON_parse this rs ws envelope now
         = onMessage JSON_parse this rs ws payload now).
Proof.
  intros Hfail.
  assert (Hraw : onMessage JSON_parse this rs ws payload now
                 = Normal (broadcast this rs (Str payload) ws now)).
  { unfold onMessage, parseMessage. rewrite Hfail. reflexivity. }
  repeat split; try assumption; try reflexivity.
  - apply push_history_last.
  - intros envelope members Hparse Hty Hcontent. rewrite Hraw.
    unfold onMessage, parseMessage. rewrite Hparse.
    cbn [get bind prop]. rewrite Hty, Hcontent. reflexivity.
Qed.

Lemma undecodable_payload_is_broadcast_witness :
  onMessage Reader.parse (server (world_after alice_and_guest_events))
            (readyState (world_after alice_and_guest_events)) 1
            "hello everyone" "2024-05-01T10:00:15.000Z"
  = Normal (broadcast (server (world_after alice_and_guest_events))
                      (readyState (world_after alice_and_guest_events))
                      (Str "hello everyone") 1 "2024-05-01T10:00:15.000Z")
  /\ onMessage Reader.parse (server (world_after alice_and_guest_events))
               (readyState (world_after alice_and_guest_events)) 1
               (Reader.object_text [("type", "broadcast");
                                    ("content", "hello everyone")])
               "2024-05-01T10:00:15.000Z"
     = onMessage Reader.parse (server (world_after alice_and_guest_events))
                 (readyState (world_after alice_and_guest_events)) 1
                 "hello everyone" "2024-05-01T10:00:15.000Z".
Proof.
  pose proof (undecodable_payload_is_broadcast Reader.parse
                (server (world_after alice_and_guest_events))
                (readyState (world_after alice_and_guest_events)) 1
                "hello everyone" "2024-05-01T10:00:15.000Z" eq_refl)
    as [Hraw [_ [_ [_ Henvelope]]]].
  split.
  - exact Hraw.
  - apply (Henvelope _ [("type", Str "broadcast");
                        ("content", Str "hello everyone")]); reflexivity.
Defined.

(** C9: a payload that is JSON without being an envelope is not taken as
    text.  [parseMessage] falls back only when [JSON.parse] throws: the
    line [null] parses, and the read of [data.type] throws a [TypeError]
    out of the callback; the line [true] parses as well, has no [content]
    member, and is broadcast with [undefined] content instead of the text
    typed, which would have given the second envelope below. *)
Theorem json_payload_that_is_no_envelope :
  parse_with_literals "null" = Some Null
  /\ onMessage parse_with_literals (server (world_after alice_and_guest_events))
               (readyState (world_after alice_and_guest_events)) 1
               "null" "2024-05-01T10:00:17.000Z"
     = Throw TypeError
  /\ step parse_with_literals (world_after alice_and_guest_events)
          (message 1 "null" "2024-05-01T10:00:17.000Z")
     = Throw TypeError
  /\ parse_with_literals "true" = Some (Bool true)
  /\ onMessage parse_with_literals (server (world_after alice_and_guest_events))
               (readyState (world_after alice_and_guest_events)) 1
               "true" "2024-05-01T10:00:19.000Z"
     = Normal (broadcast (server (world_after alice_and_guest_events))
                         (readyState (world_after alice_and_guest_events))
                         Undefined 1 "2024-05-01T10:00:19.000Z")
  /\ snd (broadcast (server (world_after alice_and_guest_events))
                    (readyState (world_after alice_and_guest_events))
                    Undefined 1 "2024-05-01T10:00:19.000Z")
     = [(2, Obj [("type", Str "broadcast");
                 ("sender", Str "alice");
                 ("timestamp", Str "2024-05-01T10:00:19.000Z")])]
  /\ snd (broadcast (server (world_after alice_and_guest_events))
                    (readyState (world_after alice_and_guest_events))
                    (Str "true") 1 "2024-05-01T10:00:19.000Z")
     = [(2, Obj [("type", Str "broadcast");
                 ("sender", Str "alice");
                 ("content", Str "true");
                 ("timestamp", Str "2024-05-01T10:00:19.000Z")])].
Proof. repeat split; reflexivity. Qed.

(** ** The history buffer *)

Lemma push_history_suffix history m :
  exists dropped, history ++ [m] = dropped ++ push_history history m.
Proof.
  unfold push_history, shift.
  destruct (100 <? List.length (history ++ [m])).
  - destruct history as [|x history].
    + exists [m]. reflexivity.
    + exists [x]. reflexivity.
  - exists []. reflexivity.
Qed.

Lemma push_history_length_ge history m :
  Nat.min 100 (S (List.length history)) <= List.length (push_history history m).
Proof.
  unfold push_history, shift.
  destruct (Nat.ltb_spec 100 (List.length (history ++ [m]))) as [Hlt|Hle].
  - rewrite length_app in Hlt. cbn [List.length] in Hlt.
    destruct history as [|x history]; cbn [List.length] in Hlt; [lia|].
    cbn [app tl List.length]. rewrite length_app. cbn [List.length]. lia.
  - rewrite length_app. cbn [List.length]. lia.
Qed.

(** After a run of pushes the buffer is a tail of the old entries followed
    by the new ones, and it is as long as the capacity allows. *)
Lemma push_all_suffix ms : forall history,
  (exists dropped, history ++ ms = dropped ++ fold_left push_history ms history)
  /\ Nat.min 100 (List.length history + List.length ms)
     <= List.length (fold_left push_history ms history).
Proof.
  induction ms as [|m ms IH]; intros history; cbn [fold_left List.length].
  - split; [exists []; now rewrite app_nil_r | lia].
  - destruct (IH (push_history history m)) as [[dropped Hd] Hlen].
    destruct (push_history_suffix history m) as [d0 Hd0]. split.
    + exists (d0 ++ dropped).
      change (m :: ms) with ([m] ++ ms).
      now rewrite app_assoc, Hd0, <- !app_assoc, Hd.
    + pose proof (push_history_length_ge history m) as Hge.
      revert Hlen Hge.
      generalize (List.length (fold_left push_history ms (push_history history m))).
      generalize (List.length (push_history history m)).
      generalize (List.length history). generalize (List.length ms).
      intros a b c d Hlen Hge. lia.
Qed.

Lemma slice_last_app {A} n (dropped l : list A) :
  n <= List.length l -> slice_last n (dropped ++ l) = slice_last n l.
Proof.
  intros Hn. unfold slice_last. rewrite length_app, skipn_app.
  replace (List.length dropped + List.length l - n - List.length dropped)
    with (List.length l - n) by lia.
  rewrite skipn_all2; [reflexivity | lia].
Qed.

Lemma slice_last_push_all n ms history :
  n <= 100 -> n <= List.length ms ->
  slice_last n (fold_left push_history ms history) = slice_last n ms.
Proof.
  intros Hcap Hn. destruct (push_all_suffix ms history) as [[dropped Hd] Hlen].
  rewrite <- (slice_last_app n dropped) by lia.
  rewrite <- Hd. now apply slice_last_app.
Qed.

Lemma broadcast_all_fields rs messages : forall this,
  usernames (broadcast_all this rs messages) = usernames this
  /\ messageHistory (broadcast_all this rs messages)
     = fold_left push_history
         (map (fun m => match m with
                        | (content, sender, now) =>
                            broadcastMessage this content sender now
                        end) messages)
         (messageHistory this).
Proof.
  induction messages as [|[[content sender] now] messages IH]; intros this.
  - split; reflexivity.
  - change (broadcast_all this rs ((content, sender, now) :: messages))
      with (broadcast_all (fst (broadcast this rs content sender now)) rs messages).
    destruct (IH (fst (broadcast this rs content sender now))) as [Hu Hh].
    split; [exact Hu|].
    rewrite Hh. cbn [map fold_left].
    change (messageHistory (fst (broadcast this rs content sender now)))
      with (push_history (messageHistory this)
                         (broadcastMessage this content sender now)).
    reflexivity.
Qed.

(** C8: in every reachable state the history holds at most 100 entries; a
    push appends at the tail and, when that makes 101, drops the head.  And
    after 150 broadcasts in a row, on any server, the [auth_success] reply
    to a socket whose name is free carries as [history] the envelopes of
    broadcasts 141 to 150, in that order. *)
Theorem history_bounded_and_recent
    (JSON_parse : string -> option Value) (w : World)
    (this : BroadcastServer) (rs : WebSocket -> ReadyState)
    (content : nat -> Value) (sender : nat -> WebSocket) (time : nat -> string)
    (ws : WebSocket) (username : Value) :
  reachable JSON_parse w ->
  includes (Map_values (usernames this)) username = false ->
  List.length (messageHistory (server w)) <= 100
  /\ (forall m, exists older dropped,
        push_history (messageHistory (server w)) m = older ++ [m]
        /\ messageHistory (server w) = dropped ++ older
        /\ List.length dropped
           = if List.length (messageHistory (server w)) <? 100 then 0 else 1)
  /\ snd (handleAuth
            (broadcast_all this rs
               (map (fun i => (content i, sender i, time i)) (seq 1 150)))
            ws username)
     = send ws (auth_success
                  (map (fun i => broadcastMessage this (content i) (sender i) (time i))
                       (seq 141 10))).
Proof.
  intros Hreach Hfree. apply reachable_invariant in Hreach.
  destruct Hreach as [_ _ Hlen]. split; [exact Hlen|]. split.
  - intros m. unfold push_history, shift.
    destruct (Nat.ltb_spec 100 (List.length (messageHistory (server w) ++ [m])))
      as [Hfull|Hroom]; rewrite length_app in *; cbn [List.length] in *.
    + destruct (messageHistory (server w)) as [|x history];
        cbn [List.length] in *; [lia|].
      exists history, [x]. repeat split.
      destruct (Nat.ltb_spec (S (List.length history)) 100); [lia | reflexivity].
    + exists (messageHistory (server w)), []. repeat split.
      destruct (Nat.ltb_spec (List.length (messageHistory (server w))) 100);
        [reflexivity | lia].
  - destruct (broadcast_all_fields rs
                (map (fun i => (content i, sender i, time i)) (seq 1 150)) this)
      as [Hu Hh].
    rewrite handleAuth_free by (now rewrite Hu). cbn [snd].
    rewrite Hh, map_map. rewrite slice_last_push_all.
    + reflexivity.
    + lia.
    + rewrite length_map, length_seq. lia.
Qed.

Lemma history_bounded_and_recent_witness :
  List.length (messageHistory (server (world_after alice_and_guest_events))) <= 100
  /\ (forall m, exists older dropped,
        push_history (messageHistory (server (world_after alice_and_guest_events))) m
        = older ++ [m]
        /\ messageHistory (server (world_after alice_and_guest_events))
           = dropped ++ older
        /\ List.length dropped
           = if List.length
                  (messageHistory (server (world_after alice_and_guest_events)))
                <? 100
             then 0 else 1)
  /\ snd (handleAuth
            (broadcast_all (server (world_after alice_and_guest_events))
               (readyState (world_after alice_and_guest_events))
               (map (fun i => (numbered i, 1, "2024-05-01T10:01:00.000Z"))
                    (seq 1 150)))
            2 (Str "bob"))
     = send 2 (auth_success
                 (map (fun i =>
                         broadcastMessage
                           (server (world_after alice_and_guest_events))
                           (numbered i) 1 "2024-05-01T10:01:00.000Z")
                      (seq 141 10))).
Proof.
  apply (history_bounded_and_recent Reader.parse
           (world_after alice_and_guest_events)
           (server (world_after alice_and_guest_events))
           (readyState (world_after alice_and_guest_events))
           numbered (fun _ => 1) (fun _ => "2024-05-01T10:01:00.000Z")
           2 (Str "bob")).
  - exact alice_and_guest_reachable.
  - reflexivity.
Defined.

(** The same run, event by event: 150 plain-text frames from alice, then
    socket 2 authenticates as bob; the history it is sent starts with
    message 141 and ends with message 150. *)
Example last_ten_of_150 :
  match run Reader.parse (world_after alice_and_guest_events)
            (map (fun i => match numbered i with
                           | Str text => message 1 text "2024-05-01T10:01:00.000Z"
                           | _ => connection 1
                           end) (seq 1 150)
             ++ [message 2 (Reader.auth_text "bob") "2024-05-01T10:02:00.000Z"])
  with
  | Normal w =>
      List.length (messageHistory (server w)) = 100
      /\ match last (sent w) (0, Undefined) with
         | (ws, frame) =>
             ws = 2
             /\ match prop frame "history" with
                | Arr entries =>
                    map (fun entry => prop entry "content") entries
                    = map numbered (seq 141 10)
                | _ => False
                end
         end
  | Throw _ => False
  end.
Proof. vm_compute. split; [reflexivity | split; reflexivity]. Qed.

(** ** Further properties of the server *)

Lemma Set_delete_absent s x : Set_has s x = false -> Set_delete s x = s.
Proof.
  unfold Set_has, Set_delete. induction s as [|a s IH]; simpl; [reflexivity|].
  intros H. apply orb_false_iff in H as [Ha Hs].
  rewrite Nat.eqb_sym, Ha. simpl. now rewrite IH.
Qed.

Lemma Set_delete_app s t x : Set_delete (s ++ t) x = Set_delete s x ++ Set_delete t x.
Proof. unfold Set_delete. apply filter_app. Qed.

(** X1: a socket that was not in [clients] and connects, then closes (or
    fails), leaves the server exactly as it was before the connection; one
    [auth_request] frame has been sent to it in between. *)
Theorem connection_then_close_restores_server
    (this : BroadcastServer) (ws : WebSocket) :
  Set_has (clients this) ws = false ->
  onClose (fst (handleConnection this ws)) ws = this
  /\ onError (fst (handleConnection this ws)) ws = this
  /\ snd (handleConnection this ws) = [(ws, Obj [("type", Str "auth_request")])].
Proof.
  intros Hfresh. destruct this as [cs hs us]. simpl in Hfresh.
  unfold onClose, onError, handleConnection. cbn [fst snd clients messageHistory usernames].
  unfold Set_add. rewrite Hfresh, Set_delete_app, (Set_delete_absent _ _ Hfresh).
  cbn. now rewrite Nat.eqb_refl, app_nil_r.
Qed.

Lemma connection_then_close_restores_server_witness :
  onClose (fst (handleConnection (server (world_after alice_and_guest_events)) 7)) 7
  = server (world_after alice_and_guest_events)
  /\ onError (fst (handleConnection (server (world_after alice_and_guest_events)) 7)) 7
     = server (world_after alice_and_guest_events)
  /\ snd (handleConnection (server (world_after alice_and_guest_events)) 7)
     = [(7, Obj [("type", Str "auth_request")])].
Proof.
  apply (connection_then_close_restores_server
           (server (world_after alice_and_guest_events)) 7).
  reflexivity.
Defined.

Lemma NoDup_Set_add s x : NoDup s -> NoDup (Set_add s x).
Proof.
  intros H. unfold Set_add. destruct (Set_has s x) eqn:Hx; [assumption|].
  apply NoDup_app.
  - assumption.
  - constructor; [intros [] | constructor].
  - intros y Hy [Hxy|[]]. subst y.
    apply Set_has_In in Hy. congruence.
Qed.

Lemma NoDup_Set_delete s x : NoDup s -> NoDup (Set_delete s x).
Proof. intros H. unfold Set_delete. now apply NoDup_filter. Qed.

Section MoreReachability.

Variable JSON_parse : string -> option Value.

(** The three ways of the [message] callback, with the test that selects
    each. *)
Lemma onMessage_cases this rs ws payload now r :
  onMessage JSON_parse this rs ws payload now = Normal r ->
  (get (parseMessage JSON_parse payload) "type" = Normal (Str "auth")
   /\ r = handleAuth this ws (prop (parseMessage JSON_parse payload) "username"))
  \/ (get (parseMessage JSON_parse payload) "type" = Normal (Str "private")
      /\ r = handlePrivateMessage this ws (parseMessage JSON_parse payload) now)
  \/ (get (parseMessage JSON_parse payload) "type" <> Normal (Str "auth")
      /\ get (parseMessage JSON_parse payload) "type" <> Normal (Str "private")
      /\ r = broadcast this rs (prop (parseMessage JSON_parse payload) "content")
                       ws now).
Proof.
  unfold onMessage. intros H.
  destruct (get (parseMessage JSON_parse payload) "type") as [ty|e];
    simpl in H; [|discriminate].
  destruct (StrictEquals ty (Str "auth")) eqn:Hauth.
  - apply StrictEquals_Str in Hauth. subst ty. left. split; congruence.
  - destruct (StrictEquals ty (Str "private")) eqn:Hprivate.
    + apply StrictEquals_Str in Hprivate. subst ty. right. left.
      split; congruence.
    + right. right. repeat split.
      * intros E. injection E as ->. discriminate Hauth.
      * intros E. injection E as ->. discriminate Hprivate.
      * congruence.
Qed.

Lemma handleAuth_clients this ws username :
  clients (fst (handleAuth this ws username)) = clients this.
Proof.
  unfold handleAuth.
  now destruct (includes (Map_values (usernames this)) username).
Qed.


Lemma onMessage_clients this rs ws payload now r :
  onMessage JSON_parse this rs ws payload now = Normal r ->
  clients (fst r) = clients this.
Proof.
  intros H. apply onMessage_cases in H.
  destruct H as [[_ ->]|[[_ ->]|[_ [_ ->]]]].
  - apply handleAuth_clients.
  - now rewrite handlePrivateMessage_state.
  - reflexivity.
Qed.

Lemma reachable_clients_NoDup w :
  reachable JSON_parse w -> NoDup (clients (server w)).
Proof.
  induction 1 as [|w e w' _ IH Hstep]; [constructor|].
  destruct e as [ws|ws payload now|ws|ws|ws state]; simpl in Hstep.
  - injection Hstep as <-. simpl. now apply NoDup_Set_add.
  - destruct (onMessage JSON_parse (server w) (readyState w) ws payload now)
      as [r|x] eqn:Hr; simpl in Hstep; [|discriminate].
    injection Hstep as <-. simpl. now rewrite (onMessage_clients _ _ _ _ _ _ Hr).
  - injection Hstep as <-. simpl. now apply NoDup_Set_delete.
  - injection Hstep as <-. simpl. now apply NoDup_Set_delete.
  - injection Hstep as <-. assumption.
Qed.

End MoreReachability.

Lemma broadcast_sockets this rs content sender now :
  map fst (snd (broadcast this rs content sender now))
  = filter (fun client => negb (client =? sender)
                          && ReadyState_eqb (rs client) OPEN)
           (clients this).
Proof.
  unfold broadcast. cbn [snd]. induction (clients this) as [|c cs IH]; simpl.
  - reflexivity.
  - destruct (negb (c =? sender) && ReadyState_eqb (rs c) OPEN); simpl;
      now rewrite IH.
Qed.

(** X2: in every reachable state no socket is twice in [clients], so a
    broadcast sends each recipient one frame and never two. *)
Theorem broadcast_one_frame_each
    (JSON_parse : string -> option Value) (w : World)
    (content : Value) (sender : WebSocket) (now : string) :
  reachable JSON_parse w ->
  NoDup (clients (server w))
  /\ NoDup (map fst (snd (broadcast (server w) (readyState w) content sender now))).
Proof.
  intros Hreach. apply reachable_clients_NoDup in Hreach. split; [assumption|].
  rewrite broadcast_sockets. now apply NoDup_filter.
Qed.

Lemma broadcast_one_frame_each_witness :
  NoDup (clients (server (world_after alice_and_guest_events)))
  /\ NoDup (map fst (snd (broadcast (server (world_after alice_and_guest_events))
                                    (readyState (world_after alice_and_guest_events))
                                    (Str "hi") 1 "2024-05-01T10:00:13.000Z"))).
Proof.
  apply (broadcast_one_frame_each Reader.parse
           (world_after alice_and_guest_events)
           (Str "hi") 1 "2024-05-01T10:00:13.000Z").
  exact alice_and_guest_reachable.
Defined.

Lemma push_all_length ms : forall history,
  List.length history <= 100 ->
  List.length (fold_left push_history ms history) <= 100.
Proof.
  induction ms as [|m ms IH]; intros history H; simpl; [assumption|].
  apply IH. now apply push_history_length.
Qed.

Lemma push_all_last_100 ms history :
  List.length history <= 100 ->
  fold_left push_history ms history = slice_last 100 (history ++ ms).
Proof.
  intros H. pose proof (push_all_length ms history H) as Hmax.
  destruct (push_all_suffix ms history) as [[dropped Hd] Hmin].
  rewrite Hd.
  assert (Htotal : List.length history + List.length ms
                   = List.length dropped
                     + List.length (fold_left push_history ms history)).
  { rewrite <- !length_app. now rewrite Hd. }
  destruct (Nat.le_gt_cases 100 (List.length (fold_left push_history ms history)))
    as [Hfull|Hroom].
  - rewrite slice_last_app by assumption.
    unfold slice_last.
    replace (List.length (fold_left push_history ms history) - 100) with 0 by lia.
    reflexivity.
  - assert (Hnone : List.length dropped = 0) by lia.
    destruct dropped; [|discriminate Hnone]. cbn [app].
    unfold slice_last.
    replace (List.length (fold_left push_history ms history) - 100) with 0 by lia.
    reflexivity.
Qed.

(** X3: the history is first in, first out: after any run of broadcasts
    from a reachable state it holds exactly the last 100 of the envelopes
    it held before followed by the new ones, in the order they came. *)
Theorem history_is_last_100
    (JSON_parse : string -> option Value) (w : World)
    (rs : WebSocket -> ReadyState)
    (messages : list (Value * WebSocket * string)) :
  reachable JSON_parse w ->
  messageHistory (broadcast_all (server w) rs messages)
  = slice_last 100
      (messageHistory (server w)
       ++ map (fun m => match m with
                        | (content, sender, now) =>
                            broadcastMessage (server w) content sender now
                        end) messages).
Proof.
  intros Hreach. apply reachable_invariant in Hreach.
  destruct Hreach as [_ _ Hlen].
  destruct (broadcast_all_fields rs messages (server w)) as [_ Hh].
  rewrite Hh. now apply push_all_last_100.
Qed.

Lemma history_is_last_100_witness :
  messageHistory
    (broadcast_all (server (world_after alice_and_guest_events))
       (readyState (world_after alice_and_guest_events))
       (map (fun i => (numbered i, 1, "2024-05-01T10:01:00.000Z")) (seq 1 120)))
  = slice_last 100
      (messageHistory (server (world_after alice_and_guest_events))
       ++ map (fun m => match m with
                        | (content, sender, now) =>
                            broadcastMessage
                              (server (world_after alice_and_guest_events))
                              content sender now
                        end)
              (map (fun i => (numbered i, 1, "2024-05-01T10:01:00.000Z"))
                   (seq 1 120))).
Proof.
  apply (history_is_last_100 Reader.parse (world_after alice_and_guest_events)).
  exact alice_and_guest_reachable.
Defined.

Lemma slice_last_length {A} n (l : list A) :
  List.length (slice_last n l) = Nat.min n (List.length l).
Proof. unfold slice_last. rewrite length_skipn. lia. Qed.

Lemma slice_last_suffix {A} n (l : list A) :
  l = firstn (List.length l - n) l ++ slice_last n l.
Proof. unfold slice_last. now rewrite firstn_skipn. Qed.

(** X4: when the name is free, the [history] of the [auth_success] reply is
    the tail of [messageHistory], oldest first: ten entries, or all of them
    when the history holds fewer than ten (none on a fresh server). *)
Theorem auth_success_history
    (this : BroadcastServer) (ws : WebSocket) (username : Value) :
  includes (Map_values (usernames this)) username = false ->
  exists older recent,
    messageHistory this = older ++ recent
    /\ List.length recent = Nat.min 10 (List.length (messageHistory this))
    /\ snd (handleAuth this ws username) = send ws (auth_success recent).
Proof.
  intros Hfree.
  exists (firstn (List.length (messageHistory this) - 10) (messageHistory this)),
         (slice_last 10 (messageHistory this)).
  split; [apply slice_last_suffix|]. split; [apply slice_last_length|].
  now rewrite handleAuth_free.
Qed.

Lemma auth_success_history_witness :
  exists older recent,
    messageHistory (server (world_after alice_and_guest_events)) = older ++ recent
    /\ List.length recent
       = Nat.min 10 (List.length
                       (messageHistory (server (world_after alice_and_guest_events))))
    /\ snd (handleAuth (server (world_after alice_and_guest_events)) 2 (Str "bob"))
       = send 2 (auth_success recent).
Proof.
  apply (auth_success_history (server (world_after alice_and_guest_events))
                              2 (Str "bob")).
  reflexivity.
Defined.




Example null_frame_throws :
  onMessage parse_with_literals (server (world_after alice_and_guest_events))
            (readyState (world_after alice_and_guest_events)) 2
            "null" "2024-05-01T10:00:17.000Z"
  = Throw TypeError.
Proof. reflexivity. Qed.

Lemma get_prop data k :
  data <> Null -> data <> Undefined -> get data k = Normal (prop data k).
Proof. destruct data; simpl; intros H1 H2; congruence. Qed.

Lemma onMessage_private JSON_parse this rs ws payload now :
  get (parseMessage JSON_parse payload) "type" = Normal (Str "private") ->
  onMessage JSON_parse this rs ws payload now
  = Normal (handlePrivateMessage this ws (parseMessage JSON_parse payload) now).
Proof. intros H. unfold onMessage. now rewrite H. Qed.

Lemma onMessage_auth JSON_parse this rs ws payload now :
  get (parseMessage JSON_parse payload) "type" = Normal (Str "auth") ->
  onMessage JSON_parse this rs ws payload now
  = Normal (handleAuth this ws (prop (parseMessage JSON_parse payload) "username")).
Proof. intros H. unfold onMessage. now rewrite H. Qed.

Lemma onMessage_broadcast JSON_parse this rs ws payload now ty :
  get (parseMessage JSON_parse payload) "type" = Normal ty ->
  ty <> Str "auth" -> ty <> Str "private" ->
  onMessage JSON_parse this rs ws payload now
  = Normal (broadcast this rs (prop (parseMessage JSON_parse payload) "content")
                      ws now).
Proof.
  intros H Ha Hp. unfold onMessage. rewrite H. cbn [bind].
  destruct (StrictEquals ty (Str "auth")) eqn:Ea.
  - apply StrictEquals_Str in Ea. contradiction.
  - destruct (StrictEquals ty (Str "private")) eqn:Ep; [|reflexivity].
    apply StrictEquals_Str in Ep. contradiction.
Qed.

Lemma broadcastMessage_without_content this ws now :
  prop (JSON_stringify (broadcastMessage this Undefined ws now)) "content"
  = Undefined.
Proof.
  unfold broadcastMessage.
  destruct (JS.or (Map_get (usernames this) ws) (Str "Anonymous")); reflexivity.
Qed.

(** X7: a frame that is JSON, is not [null], has no [content] member and
    whose [type] is neither auth nor private (any number, string, boolean
    or array, or an object such as [{}]) is broadcast all the same: the
    envelope pushed on the history has [undefined] content, and the frame
    sent to the other sockets has no [content] member. *)
Theorem frame_without_content_is_broadcast
    (JSON_parse : string -> option Value)
    (this : BroadcastServer) (rs : WebSocket -> ReadyState)
    (ws : WebSocket) (payload now : string) (data : Value) :
  JSON_parse payload = Some data ->
  data <> Null -> data <> Undefined ->
  prop data "type" <> Str "auth" ->
  prop data "type" <> Str "private" ->
  prop data "content" = Undefined ->
  onMessage JSON_parse this rs ws payload now
  = Normal (broadcast this rs Undefined ws now)
  /\ prop (JSON_stringify (broadcastMessage this Undefined ws now)) "content"
     = Undefined.
Proof.
  intros Hparse Hnull Hundef Ha Hp Hcontent.
  split; [|apply broadcastMessage_without_content].
  assert (Hdata : parseMessage JSON_parse payload = data).
  { unfold parseMessage. now rewrite Hparse. }
  rewrite (onMessage_broadcast _ _ _ _ _ _ (prop data "type")).
  - now rewrite Hdata, Hcontent.
  - rewrite Hdata. now apply get_prop.
  - assumption.
  - assumption.
Qed.

Lemma frame_without_content_is_broadcast_witness :
  onMessage parse_with_literals (server (world_after alice_and_guest_events))
            (readyState (world_after alice_and_guest_events)) 1
            "true" "2024-05-01T10:00:19.000Z"
  = Normal (broadcast (server (world_after alice_and_guest_events))
                      (readyState (world_after alice_and_guest_events))
                      Undefined 1 "2024-05-01T10:00:19.000Z")
  /\ prop (JSON_stringify
             (broadcastMessage (server (world_after alice_and_guest_events))
                               Undefined 1 "2024-05-01T10:00:19.000Z")) "content"
     = Undefined.
Proof.
  apply (frame_without_content_is_broadcast parse_with_literals
           (server (world_after alice_and_guest_events))
           (readyState (world_after alice_and_guest_events)) 1
           "true" "2024-05-01T10:00:19.000Z" (Bool true)).
  - reflexivity.
  - discriminate.
  - discriminate.
  - discriminate.
  - discriminate.
  - reflexivity.
Defined.

(** X8: once [handleAuth] has accepted a name, the broadcasts of the socket
    are signed with it, except that the empty name, which is accepted like
    any other, is signed Anonymous. *)
Theorem broadcast_sender_after_auth
    (this : BroadcastServer) (ws : WebSocket) (name : string)
    (content : Value) (now : string) :
  includes (Map_values (usernames this)) (Str name) = false ->
  prop (broadcastMessage (fst (handleAuth this ws (Str name))) content ws now)
       "sender"
  = Str (if String.eqb name "" then "Anonymous" else name).
Proof.
  intros Hfree. rewrite (handleAuth_free _ _ _ Hfree).
  unfold broadcastMessage. cbn [fst usernames prop own_property].
  rewrite Map_get_set_same.
  change (String.eqb "type" "sender") with false.
  change (String.eqb "sender" "sender") with true. cbv iota.
  unfold JS.or, truthy. now destruct (String.eqb name "").
Qed.

Lemma broadcast_sender_after_auth_witness :
  prop (broadcastMessage
          (fst (handleAuth (server (world_after alice_and_guest_events)) 2 (Str "")))
          (Str "hi") 2 "2024-05-01T10:00:21.000Z")
       "sender"
  = Str (if String.eqb "" "" then "Anonymous" else "").
Proof.
  apply (broadcast_sender_after_auth
           (server (world_after alice_and_guest_events)) 2 ""
           (Str "hi") "2024-05-01T10:00:21.000Z").
  reflexivity.
Defined.

(** X9: a name outlives its socket as a recipient too.  After the [close]
    (or [error]) of the socket that holds a name, a private frame for that
    name still has [send] called on the departed socket, and the sender
    gets its echo. *)
Theorem private_message_to_departed_socket
    (JSON_parse : string -> option Value) (w : World)
    (ws departed : WebSocket) (payload now name : string) :
  reachable JSON_parse w ->
  Map_get (usernames (server w)) departed = Str name ->
  get (parseMessage JSON_parse payload) "type" = Normal (Str "private") ->
  prop (parseMessage JSON_parse payload) "recipient" = Str name ->
  Set_has (clients (onClose (server w) departed)) departed = false
  /\ onMessage JSON_parse (onClose (server w) departed) (readyState w) ws payload now
     = Normal (onClose (server w) departed,
               [(departed,
                 JSON_stringify
                   (privateMessage (server w) ws
                                   (parseMessage JSON_parse payload) now));
                (ws,
                 JSON_stringify
                   (privateMessage (server w) ws
                                   (parseMessage JSON_parse payload) now))])
  /\ onMessage JSON_parse (onError (server w) departed) (readyState w) ws payload now
     = Normal (onError (server w) departed,
               [(departed,
                 JSON_stringify
                   (privateMessage (server w) ws
                                   (parseMessage JSON_parse payload) now));
                (ws,
                 JSON_stringify
                   (privateMessage (server w) ws
                                   (parseMessage JSON_parse payload) now))]).
Proof.
  intros Hreach Hget Hty Hrec. apply reachable_invariant in Hreach.
  destruct Hreach as [_ Hnames _].
  split; [apply onClose_removes|].
  rewrite !(onMessage_private _ _ _ _ _ _ Hty).
  unfold handlePrivateMessage. rewrite Hrec.
  rewrite (find_recipient_holder (onClose (server w) departed) departed name Hnames Hget).
  rewrite (find_recipient_holder (onError (server w) departed) departed name Hnames Hget).
  split; reflexivity.
Qed.

Lemma private_message_to_departed_socket_witness :
  Set_has (clients (onClose (server (world_after alice_and_guest_events)) 1)) 1
  = false
  /\ onMessage Reader.parse (onClose (server (world_after alice_and_guest_events)) 1)
               (readyState (world_after alice_and_guest_events)) 2
               (Reader.private_text "alice" "secret") "2024-05-01T10:00:11.000Z"
     = Normal (onClose (server (world_after alice_and_guest_events)) 1,
               [(1,
                 JSON_stringify
                   (privateMessage (server (world_after alice_and_guest_events)) 2
                      (parseMessage Reader.parse
                                    (Reader.private_text "alice" "secret"))
                      "2024-05-01T10:00:11.000Z"));
                (2,
                 JSON_stringify
                   (privateMessage (server (world_after alice_and_guest_events)) 2
                      (parseMessage Reader.parse
                                    (Reader.private_text "alice" "secret"))
                      "2024-05-01T10:00:11.000Z"))])
  /\ onMessage Reader.parse (onError (server (world_after alice_and_guest_events)) 1)
               (readyState (world_after alice_and_guest_events)) 2
               (Reader.private_text "alice" "secret") "2024-05-01T10:00:11.000Z"
     = Normal (onError (server (world_after alice_and_guest_events)) 1,
               [(1,
                 JSON_stringify
                   (privateMessage (server (world_after alice_and_guest_events)) 2
                      (parseMessage Reader.parse
                                    (Reader.private_text "alice" "secret"))
                      "2024-05-01T10:00:11.000Z"));
                (2,
                 JSON_stringify
                   (privateMessage (server (world_after alice_and_guest_events)) 2
                      (parseMessage Reader.parse
                                    (Reader.private_text "alice" "secret"))
                      "2024-05-01T10:00:11.000Z"))]).
Proof.
  apply (private_message_to_departed_socket Reader.parse
           (world_after alice_and_guest_events) 2 1
           (Reader.private_text "alice" "secret")
           "2024-05-01T10:00:11.000Z" "alice").
  - exact alice_and_guest_reachable.
  - reflexivity.
  - reflexivity.
  - reflexivity.
Defined.

(** ** The server's frames, as the client takes them *)

Lemma asks_again_after (before : list Client.Effect) (shown : Client.Run)
    (callback : Client.Callback) :
  Client.asks_again
    (Client.and_then (before, None)
       (Client.and_then shown ([Client.rl_question callback], None))).
Proof.
  destruct shown as [effects [e|]]; unfold Client.and_then; cbn.
  - intros H. discriminate H.
  - intros _. exists (before ++ effects), callback. now rewrite app_assoc.
Qed.

Lemma taken_auth_request :
  taken_by_client (JSON_stringify (Obj [("type", Str "auth_request")])).
Proof.
  split; [reflexivity|]. intros pl bl hl _.
  exists [], Client.username_callback. reflexivity.
Qed.

Lemma taken_auth_error : taken_by_client (JSON_stringify auth_error).
Proof.
  split; [reflexivity|]. intros pl bl hl _.
  exists [Client.console_log [Str "Error:"; Str "Username already taken"]],
         Client.username_callback.
  reflexivity.
Qed.

Lemma onMessage_auth_success private_line broadcast_line history_line history :
  Client.onMessage private_line broadcast_line history_line
                   (JSON_stringify (auth_success history))
  = Client.and_then
      ([Client.console_log [Str "Authentication successful"]], None)
      (Client.and_then
         (Client.showMessageHistory history_line
            (prop (JSON_stringify (auth_success history)) "history"))
         ([Client.rl_question Client.message_callback], None)).
Proof. reflexivity. Qed.

Lemma taken_auth_success history :
  taken_by_client (JSON_stringify (auth_success history)).
Proof.
  split; [reflexivity|]. intros pl bl hl.
  rewrite onMessage_auth_success. apply asks_again_after.
Qed.

Lemma onMessage_private_frame private_line broadcast_line history_line
      this ws data now :
  Client.onMessage private_line broadcast_line history_line
                   (JSON_stringify (privateMessage this ws data now))
  = match private_line
            (prop (JSON_stringify (privateMessage this ws data now)) "sender")
            (prop (JSON_stringify (privateMessage this ws data now)) "timestamp")
            (prop (JSON_stringify (privateMessage this ws data now)) "content")
    with
    | Normal line =>
        ([Client.console_log [Str line];
          Client.rl_question Client.message_callback], None)
    | Throw e => ([], Some e)
    end.
Proof. reflexivity. Qed.

Lemma onMessage_broadcast_frame private_line broadcast_line history_line
      this content sender now :
  Client.onMessage private_line broadcast_line history_line
                   (JSON_stringify (broadcastMessage this content sender now))
  = match broadcast_line
            (prop (JSON_stringify (broadcastMessage this content sender now))
                  "sender")
            (prop (JSON_stringify (broadcastMessage this content sender now))
                  "timestamp")
            (prop (JSON_stringify (broadcastMessage this content sender now))
                  "content")
    with
    | Normal line =>
        ([Client.console_log [Str line];
          Client.rl_question Client.message_callback], None)
    | Throw e => ([], Some e)
    end.
Proof. reflexivity. Qed.

Lemma taken_privateMessage this ws data now :
  taken_by_client (JSON_stringify (privateMessage this ws data now)).
Proof.
  split; [reflexivity|]. intros pl bl hl.
  rewrite onMessage_private_frame.
  destruct (pl _ _ _) as [line|e]; intros H; [|discriminate H].
  exists [Client.console_log [Str line]], Client.message_callback. reflexivity.
Qed.

Lemma taken_broadcastMessage this content sender now :
  taken_by_client (JSON_stringify (broadcastMessage this content sender now)).
Proof.
  split; [reflexivity|]. intros pl bl hl.
  rewrite onMessage_broadcast_frame.
  destruct (bl _ _ _) as [line|e]; intros H; [|discriminate H].
  exists [Client.console_log [Str line]], Client.message_callback. reflexivity.
Qed.

Lemma handleAuth_frames this ws username frame :
  In frame (snd (handleAuth this ws username)) -> taken_by_client (snd frame).
Proof.
  unfold handleAuth.
  destruct (includes (Map_values (usernames this)) username);
    intros [<-|[]]; cbn [snd].
  - apply taken_auth_error.
  - apply (taken_auth_success (slice_last 10 (messageHistory this))).
Qed.

Lemma handlePrivateMessage_frames this ws data now frame :
  In frame (snd (handlePrivateMessage this ws data now)) ->
  taken_by_client (snd frame).
Proof.
  unfold handlePrivateMessage.
  destruct (find_recipient this (prop data "recipient")); cbn [snd];
    [|intros []].
  intros [<-|[<-|[]]]; apply (taken_privateMessage this ws data now).
Qed.

Lemma broadcast_frames this rs content sender now frame :
  In frame (snd (broadcast this rs content sender now)) ->
  taken_by_client (snd frame).
Proof.
  destruct frame as [client f]. intros H.
  assert (Hf : f = JSON_stringify (broadcastMessage this content sender now)).
  { unfold broadcast in H. cbn [snd] in H. apply in_flat_map in H.
    destruct H as [c [_ Hc]].
    destruct (negb (c =? sender) && ReadyState_eqb (rs c) OPEN); [|contradiction].
    destruct Hc as [Hc|[]]. now injection Hc. }
  subst f. apply taken_broadcastMessage.
Qed.

Section Protocol.

Variable JSON_parse : string -> option Value.

Lemma reachable_sent_taken w :
  reachable JSON_parse w ->
  Forall (fun frame => taken_by_client (snd frame)) (sent w).
Proof.
  induction 1 as [|w e w' Hw IH Hstep]; [constructor|].
  destruct e as [ws|ws payload now|ws|ws|ws state]; simpl in Hstep;
    try (injection Hstep as <-; exact IH).
  - injection Hstep as <-. cbn [sent]. apply Forall_app. split; [assumption|].
    constructor; [apply taken_auth_request | constructor].
  - destruct (onMessage JSON_parse (server w) (readyState w) ws payload now)
      as [r|x] eqn:Hr; simpl in Hstep; [|discriminate].
    injection Hstep as <-. cbn [sent]. apply Forall_app. split; [assumption|].
    apply Forall_forall. intros frame Hin.
    apply onMessage_cases in Hr. destruct Hr as [[_ ->]|[[_ ->]|[_ [_ ->]]]].
    + eapply handleAuth_frames; eassumption.
    + eapply handlePrivateMessage_frames; eassumption.
    + eapply broadcast_frames; eassumption.
Qed.

End Protocol.

(** X10: the server sends no frame the client has no case for.  Every frame
    sent in a run of the server has one of the five types of the client's
    [switch]; and whenever the client's [message] callback gets through
    such a frame without an exception (building a console line can throw),
    the last thing it does is to ask the user again, for a username or for
    a message. *)
Theorem server_frames_known_to_client
    (JSON_parse : string -> option Value) (w : World)
    (ws : WebSocket) (frame : Value)
    (private_line broadcast_line history_line
       : Value -> Value -> Value -> Completion string) :
  reachable JSON_parse w ->
  In (ws, frame) (sent w) ->
  known_type frame = true
  /\ (snd (Client.onMessage private_line broadcast_line history_line frame)
      = None ->
      exists effects callback,
        fst (Client.onMessage private_line broadcast_line history_line frame)
        = effects ++ [Client.rl_question callback]).
Proof.
  intros Hreach Hin. apply reachable_sent_taken in Hreach.
  rewrite Forall_forall in Hreach. destruct (Hreach _ Hin) as [Hknown Hruns].
  split; [exact Hknown | apply Hruns].
Qed.

Lemma departed_recipient_reachable :
  reachable Reader.parse (world_after departed_recipient_events).
Proof.
  apply (run_reachable Reader.parse departed_recipient_events start);
    [apply reachable_start | reflexivity].
Qed.

Lemma server_frames_known_to_client_witness :
  known_type (Obj [("type", Str "private");
                   ("sender", Str "bob");
                   ("content", Str "secret");
                   ("timestamp", Str "2024-05-01T10:00:11.000Z")]) = true
  /\ (snd (Client.onMessage Client.plain_line Client.plain_line Client.plain_line
             (Obj [("type", Str "private");
                   ("sender", Str "bob");
                   ("content", Str "secret");
                   ("timestamp", Str "2024-05-01T10:00:11.000Z")]))
      = None ->
      exists effects callback,
        fst (Client.onMessage Client.plain_line Client.plain_line
               Client.plain_line
               (Obj [("type", Str "private");
                     ("sender", Str "bob");
                     ("content", Str "secret");
                     ("timestamp", Str "2024-05-01T10:00:11.000Z")]))
        = effects ++ [Client.rl_question callback]).
Proof.
  apply (server_frames_known_to_client Reader.parse
           (world_after departed_recipient_events) 2).
  - exact departed_recipient_reachable.
  - right. right. right. right. right. left. reflexivity.
Defined.

Example client_on_private_frame :
  Client.onMessage Client.plain_line Client.plain_line Client.plain_line
    (Obj [("type", Str "private");
          ("sender", Str "bob");
          ("content", Str "secret");
          ("timestamp", Str "2024-05-01T10:00:11.000Z")])
  = ([Client.console_log [Str "bob: secret"];
      Client.rl_question Client.message_callback], None)
  /\ Client.onMessage Client.plain_line Client.plain_line Client.plain_line
       (Obj [("type", Str "private");
             ("sender", Str "bob");
             ("content", Obj [("toString", Null)]);
             ("timestamp", Str "2024-05-01T10:00:11.000Z")])
     = ([], Some TypeError).
Proof. split; reflexivity. Qed.

(** ** The client's prompt *)

Lemma lower_q c : Client.lower c = "q"%char <-> (c = "q"%char \/ c = "Q"%char).
Proof.
  destruct c as [[] [] [] [] [] [] [] []]; vm_compute;
    (split; [intros H; try discriminate H; auto
            | intros [H|H]; solve [discriminate H | reflexivity]]).
Qed.

Lemma lower_u c : Client.lower c = "u"%char <-> (c = "u"%char \/ c = "U"%char).
Proof.
  destruct c as [[] [] [] [] [] [] [] []]; vm_compute;
    (split; [intros H; try discriminate H; auto
            | intros [H|H]; solve [discriminate H | reflexivity]]).
Qed.

Lemma lower_i c : Client.lower c = "i"%char <-> (c = "i"%char \/ c = "I"%char).
Proof.
  destruct c as [[] [] [] [] [] [] [] []]; vm_compute;
    (split; [intros H; try discriminate H; auto
            | intros [H|H]; solve [discriminate H | reflexivity]]).
Qed.

Lemma lower_t c : Client.lower c = "t"%char <-> (c = "t"%char \/ c = "T"%char).
Proof.
  destruct c as [[] [] [] [] [] [] [] []]; vm_compute;
    (split; [intros H; try discriminate H; auto
            | intros [H|H]; solve [discriminate H | reflexivity]]).
Qed.

Lemma toLowerCase_quit input :
  Client.toLowerCase input = "quit"
  <-> exists a b c d,
        input = String a (String b (String c (String d EmptyString)))
        /\ (a = "q"%char \/ a = "Q"%char) /\ (b = "u"%char \/ b = "U"%char)
        /\ (c = "i"%char \/ c = "I"%char) /\ (d = "t"%char \/ d = "T"%char).
Proof.
  split.
  - intros H.
    destruct input as [|a [|b [|c [|d [|e rest]]]]]; cbn [Client.toLowerCase] in H;
      try discriminate H.
    injection H as Ha Hb Hc Hd. exists a, b, c, d.
    apply lower_q in Ha. apply lower_u in Hb. apply lower_i in Hc.
    apply lower_t in Hd. repeat split; assumption.
  - intros [a [b [c [d [-> [Ha [Hb [Hc Hd]]]]]]]].
    apply lower_q in Ha. apply lower_u in Hb. apply lower_i in Hc.
    apply lower_t in Hd. cbn [Client.toLowerCase]. now rewrite Ha, Hb, Hc, Hd.
Qed.

(** X11: the prompt closes the socket, and sends nothing, exactly on the
    four letters of quit in any mix of upper and lower case; a line with
    anything more, be it a space before or after, is not a command. *)
Theorem promptMessage_quit (input : string) :
  Client.promptMessage input = Client.ws_close
  <-> exists a b c d,
        input = String a (String b (String c (String d EmptyString)))
        /\ (a = "q"%char \/ a = "Q"%char) /\ (b = "u"%char \/ b = "U"%char)
        /\ (c = "i"%char \/ c = "I"%char) /\ (d = "t"%char \/ d = "T"%char).
Proof.
  rewrite <- toLowerCase_quit. unfold Client.promptMessage.
  destruct (String.eqb_spec (Client.toLowerCase input) "quit") as [E|E].
  - split; intros _; [assumption | reflexivity].
  - split; [|intros H; contradiction].
    destruct (Client.startsWith input "@"); [|discriminate].
    destruct (Client.split (Client.slice_1 input) " "); discriminate.
Qed.

Example quit_with_a_space_is_sent :
  Client.promptMessage "Quit" = Client.ws_close
  /\ Client.promptMessage "quit " = Client.ws_send (Client.raw "quit ").
Proof. split; reflexivity. Qed.

Lemma split_not_nil s sep : Client.split s sep <> [].
Proof.
  destruct s as [|c rest]; cbn [Client.split]; [discriminate|].
  destruct (Ascii.eqb c sep); [discriminate|].
  destruct (Client.split rest sep); discriminate.
Qed.

Lemma split_without_separator s sep :
  ~ In sep (list_ascii_of_string s) -> Client.split s sep = [s].
Proof.
  induction s as [|c rest IH]; cbn [Client.split list_ascii_of_string];
    [reflexivity|].
  intros H. destruct (Ascii.eqb_spec c sep) as [->|_].
  - exfalso. apply H. now left.
  - rewrite IH; [reflexivity|]. intros Hin. apply H. now right.
Qed.

Lemma split_at_first_separator s sep rest :
  ~ In sep (list_ascii_of_string s) ->
  Client.split (s ++ String sep rest)%string sep = s :: Client.split rest sep.
Proof.
  induction s as [|c s IH]; cbn [Client.split list_ascii_of_string String.append].
  - intros _. now rewrite Ascii.eqb_refl.
  - intros H. destruct (Ascii.eqb_spec c sep) as [->|_].
    + exfalso. apply H. now left.
    + rewrite IH; [reflexivity|]. intros Hin. apply H. now right.
Qed.

Lemma concat_cons sep x xs :
  xs <> [] -> String.concat sep (x :: xs) = (x ++ sep ++ String.concat sep xs)%string.
Proof. destruct xs; [contradiction | reflexivity]. Qed.

(** [split] and [join] are inverse: the pieces put together again with the
    separator give the string back. *)
Lemma join_split s sep :
  Client.join (Client.split s sep) (String sep EmptyString) = s.
Proof.
  unfold Client.join. induction s as [|c rest IH]; cbn [Client.split];
    [reflexivity|].
  pose proof (split_not_nil rest sep) as Hne.
  destruct (Ascii.eqb_spec c sep) as [->|_].
  - rewrite concat_cons by assumption. rewrite IH. reflexivity.
  - destruct (Client.split rest sep) as [|p ps]; [contradiction|].
    destruct ps as [|p' ps].
    + cbn [String.concat] in *. now rewrite IH.
    + rewrite concat_cons by discriminate.
      rewrite concat_cons in IH by discriminate.
      cbn [String.append] in *. now rewrite IH.
Qed.

Lemma promptMessage_at rest :
  Client.promptMessage (String "@" rest)
  = match Client.split rest " " with
    | recipient :: messageParts =>
        Client.ws_send
          (Client.json (Obj [("type", Str "private");
                             ("recipient", Str recipient);
                             ("content", Str (Client.join messageParts " "))]))
    | [] =>
        Client.ws_send
          (Client.json (Obj [("type", Str "private");
                             ("recipient", Undefined);
                             ("content", Str (Client.join [] " "))]))
    end.
Proof.
  unfold Client.promptMessage. cbn [Client.toLowerCase].
  change (Client.lower "@") with "@"%char.
  change (String.eqb (String "@" (Client.toLowerCase rest)) "quit") with false.
  assert (Hat : Client.startsWith (String "@" rest) "@" = true).
  { unfold Client.startsWith. now destruct rest. }
  now rewrite Hat.
Qed.

(** X12: a line that starts with an at sign is cut at its first space: what
    stands before is the recipient, what stands after is the content,
    character for character, further spaces included.  Without any space
    the whole rest is the recipient and the content is empty. *)
Theorem promptMessage_private (recipient content : string) :
  ~ In " "%char (list_ascii_of_string recipient) ->
  Client.promptMessage (String "@" (recipient ++ String " " content))
  = Client.ws_send
      (Client.json (Obj [("type", Str "private");
                         ("recipient", Str recipient);
                         ("content", Str content)]))
  /\ Client.promptMessage (String "@" recipient)
     = Client.ws_send
         (Client.json (Obj [("type", Str "private");
                            ("recipient", Str recipient);
                            ("content", Str "")])).
Proof.
  intros Hr. rewrite !promptMessage_at. split.
  - rewrite (split_at_first_separator _ _ _ Hr).
    now rewrite (join_split content " ").
  - now rewrite (split_without_separator _ _ Hr).
Qed.

Lemma promptMessage_private_witness :
  Client.promptMessage "@bob see  you at 5"
  = Client.ws_send
      (Client.json (Obj [("type", Str "private");
                         ("recipient", Str "bob");
                         ("content", Str "see  you at 5")]))
  /\ Client.promptMessage "@bob"
     = Client.ws_send
         (Client.json (Obj [("type", Str "private");
                            ("recipient", Str "bob");
                            ("content", Str "")])).
Proof.
  apply (promptMessage_private "bob" "see  you at 5").
  intros [H|[H|[H|[]]]]; discriminate H.
Defined.

(** ** The client and the server together *)

(** X13: any other line goes to the server as it was typed.  If it is not
    JSON, the server broadcasts it whole, spaces included; but nothing
    marks it as text, so a line that is the JSON of an [auth] envelope makes
    the server run [handleAuth] for the sender. *)
Theorem chat_line_is_sent_as_typed
    (JSON_parse : string -> option Value)
    (this : BroadcastServer) (rs : WebSocket -> ReadyState)
    (ws : WebSocket) (input now : string) :
  Client.startsWith input "@" = false ->
  Client.toLowerCase input <> "quit" ->
  Client.promptMessage input = Client.ws_send (Client.raw input)
  /\ (JSON_parse input = None ->
      onMessage JSON_parse this rs ws input now
      = Normal (broadcast this rs (Str input) ws now))
  /\ (forall members,
         JSON_parse input = Some (Obj members) ->
         own_property members "type" = Str "auth" ->
         onMessage JSON_parse this rs ws input now
         = Normal (handleAuth this ws (own_property members "username"))).
Proof.
  intros Hat Hquit. repeat split.
  - unfold Client.promptMessage. rewrite Hat.
    destruct (String.eqb_spec (Client.toLowerCase input) "quit");
      [contradiction | reflexivity].
  - intros Hparse. unfold onMessage, parseMessage. now rewrite Hparse.
  - intros members Hparse Hty. unfold onMessage, parseMessage.
    rewrite Hparse. cbn [get bind prop]. now rewrite Hty.
Qed.

Lemma chat_line_is_sent_as_typed_witness :
  Client.promptMessage (Reader.auth_text "mallory")
  = Client.ws_send (Client.raw (Reader.auth_text "mallory"))
  /\ onMessage Reader.parse (server (world_after alice_and_guest_events))
               (readyState (world_after alice_and_guest_events)) 1
               "  hello  everyone " "2024-05-01T10:00:23.000Z"
     = Normal (broadcast (server (world_after alice_and_guest_events))
                         (readyState (world_after alice_and_guest_events))
                         (Str "  hello  everyone ") 1 "2024-05-01T10:00:23.000Z")
  /\ onMessage Reader.parse (server (world_after alice_and_guest_events))
               (readyState (world_after alice_and_guest_events)) 1
               (Reader.auth_text "mallory") "2024-05-01T10:00:23.000Z"
     = Normal (handleAuth (server (world_after alice_and_guest_events)) 1
                          (Str "mallory")).
Proof.
  assert (Hq1 : Client.toLowerCase (Reader.auth_text "mallory") <> "quit")
    by discriminate.
  assert (Hq2 : Client.toLowerCase "  hello  everyone " <> "quit")
    by discriminate.
  destruct (chat_line_is_sent_as_typed Reader.parse
              (server (world_after alice_and_guest_events))
              (readyState (world_after alice_and_guest_events)) 1
              (Reader.auth_text "mallory") "2024-05-01T10:00:23.000Z"
              eq_refl Hq1) as [Hsent [_ Hauth]].
  destruct (chat_line_is_sent_as_typed Reader.parse
              (server (world_after alice_and_guest_events))
              (readyState (world_after alice_and_guest_events)) 1
              "  hello  everyone " "2024-05-01T10:00:23.000Z"
              eq_refl Hq2) as [_ [Hplain _]].
  split; [exact Hsent|]. split.
  - apply Hplain. reflexivity.
  - apply (Hauth [("type", Str "auth"); ("username", Str "mallory")]);
      reflexivity.
Defined.

(** X14: the answer to the username prompt, taken to the server and back.
    The server runs [handleAuth] on the name typed.  If the name is held,
    the reply makes the client print the error and ask for a username
    again.  If it is free, the socket gets the name, and the reply makes
    the client print the greeting and show the history; it then asks for a
    message, unless showing the history threw, in which case the run ends
    there.  With an empty history nothing can throw. *)
Theorem username_answer_round_trip
    (JSON_parse : string -> option Value)
    (this : BroadcastServer) (rs : WebSocket -> ReadyState)
    (ws : WebSocket) (username payload now : string)
    (private_line broadcast_line history_line
       : Value -> Value -> Value -> Completion string) :
  Client.carries JSON_parse payload (snd (Client.handleAuthRequest username)) ->
  exists reply,
    onMessage JSON_parse this rs ws payload now
    = Normal (fst (handleAuth this ws (Str username)), [(ws, reply)])
    /\ (includes (Map_values (usernames this)) (Str username) = true ->
        fst (handleAuth this ws (Str username)) = this
        /\ Client.onMessage private_line broadcast_line history_line reply
           = ([Client.console_log [Str "Error:"; Str "Username already taken"];
               Client.rl_question Client.username_callback], None))
    /\ (includes (Map_values (usernames this)) (Str username) = false ->
        Map_get (usernames (fst (handleAuth this ws (Str username)))) ws
        = Str username
        /\ (exists shown outcome,
               Client.showMessageHistory history_line (prop reply "history")
               = (shown, outcome)
               /\ Client.onMessage private_line broadcast_line history_line reply
                  = (Client.console_log [Str "Authentication successful"]
                       :: shown
                       ++ match outcome with
                          | None => [Client.rl_question Client.message_callback]
                          | Some _ => []
                          end,
                     outcome))
        /\ (messageHistory this = [] ->
            Client.onMessage private_line broadcast_line history_line reply
            = ([Client.console_log [Str "Authentication successful"];
                Client.rl_question Client.message_callback], None))).
Proof.
  intros Hcarries. cbn in Hcarries.
  assert (Hdata : parseMessage JSON_parse payload
                  = Obj [("type", Str "auth"); ("username", Str username)]).
  { unfold parseMessage. now rewrite Hcarries. }
  rewrite onMessage_auth by now rewrite Hdata.
  rewrite Hdata. cbn [prop own_property].
  change (String.eqb "type" "username") with false.
  change (String.eqb "username" "username") with true. cbv iota.
  destruct (includes (Map_values (usernames this)) (Str username)) eqn:Hin.
  - rewrite (handleAuth_taken _ _ _ Hin). eexists. split; [reflexivity|].
    split; [|discriminate]. intros _. split; reflexivity.
  - rewrite (handleAuth_free _ _ _ Hin). eexists. split; [reflexivity|].
    split; [discriminate|]. intros _. split; [apply Map_get_set_same|]. split.
    + rewrite onMessage_auth_success.
      destruct (Client.showMessageHistory history_line
                  (prop (JSON_stringify
                           (auth_success (slice_last 10 (messageHistory this))))
                        "history")) as [shown [e|]] eqn:Hshown.
      * exists shown, (Some e). split; [reflexivity|].
        unfold Client.and_then. cbn. now rewrite app_nil_r.
      * exists shown, None. split; reflexivity.
    + intros Hempty. cbn [fst usernames messageHistory]. rewrite Hempty.
      reflexivity.
Qed.

Lemma username_answer_round_trip_witness :
  exists reply,
    onMessage Reader.parse (server (world_after alice_and_guest_events))
              (readyState (world_after alice_and_guest_events)) 2
              (Reader.auth_text "bob") "2024-05-01T10:00:25.000Z"
    = Normal (fst (handleAuth (server (world_after alice_and_guest_events)) 2
                              (Str "bob")),
              [(2, reply)])
    /\ (includes (Map_values (usernames (server (world_after alice_and_guest_events))))
                 (Str "bob") = true ->
        fst (handleAuth (server (world_after alice_and_guest_events)) 2 (Str "bob"))
        = server (world_after alice_and_guest_events)
        /\ Client.onMessage Client.plain_line Client.plain_line Client.plain_line
                            reply
           = ([Client.console_log [Str "Error:"; Str "Username already taken"];
               Client.rl_question Client.username_callback], None))
    /\ (includes (Map_values (usernames (server (world_after alice_and_guest_events))))
                 (Str "bob") = false ->
        Map_get (usernames
                   (fst (handleAuth (server (world_after alice_and_guest_events)) 2
                                    (Str "bob")))) 2
        = Str "bob"
        /\ (exists shown outcome,
               Client.showMessageHistory Client.plain_line (prop reply "history")
               = (shown, outcome)
               /\ Client.onMessage Client.plain_line Client.plain_line
                                   Client.plain_line reply
                  = (Client.console_log [Str "Authentication successful"]
                       :: shown
                       ++ match outcome with
                          | None => [Client.rl_question Client.message_callback]
                          | Some _ => []
                          end,
                     outcome))
        /\ (messageHistory (server (world_after alice_and_guest_events)) = [] ->
            Client.onMessage Client.plain_line Client.plain_line
                             Client.plain_line reply
            = ([Client.console_log [Str "Authentication successful"];
                Client.rl_question Client.message_callback], None))).
Proof.
  apply (username_answer_round_trip Reader.parse
           (server (world_after alice_and_guest_events))
           (readyState (world_after alice_and_guest_events)) 2 "bob"
           (Reader.auth_text "bob") "2024-05-01T10:00:25.000Z").
  reflexivity.
Defined.

(** X15: a private line, from the prompt to the two sockets.  The line
    [@name text] typed at a client whose frame reaches the server is
    delivered to the socket that holds [name] and echoed to the sender:
    the envelope carries the text after the first space unchanged, the
    sender's own name as the registry has it, and the time of processing;
    the recipient's name is not in it. *)
Theorem private_line_end_to_end
    (JSON_parse : string -> option Value) (w : World)
    (ws holder : WebSocket) (recipient content payload now : string) :
  reachable JSON_parse w ->
  ~ In " "%char (list_ascii_of_string recipient) ->
  Map_get (usernames (server w)) holder = Str recipient ->
  Client.carries JSON_parse payload
    (Client.json (Obj [("type", Str "private");
                       ("recipient", Str recipient);
                       ("content", Str content)])) ->
  Client.promptMessage (String "@" (recipient ++ String " " content))
  = Client.ws_send
      (Client.json (Obj [("type", Str "private");
                         ("recipient", Str recipient);
                         ("content", Str content)]))
  /\ onMessage JSON_parse (server w) (readyState w) ws payload now
     = Normal (server w,
               [(holder,
                 JSON_stringify
                   (Obj [("type", Str "private");
                         ("sender", Map_get (usernames (server w)) ws);
                         ("content", Str content);
                         ("timestamp", Str now)]));
                (ws,
                 JSON_stringify
                   (Obj [("type", Str "private");
                         ("sender", Map_get (usernames (server w)) ws);
                         ("content", Str content);
                         ("timestamp", Str now)]))]).
Proof.
  intros Hreach Hspace Hholder Hcarries. apply reachable_invariant in Hreach.
  destruct Hreach as [_ Hnames _]. split.
  - rewrite promptMessage_at, (split_at_first_separator _ _ _ Hspace).
    now rewrite (join_split content " ").
  - cbn in Hcarries.
    assert (Hdata : parseMessage JSON_parse payload
                    = Obj [("type", Str "private");
                           ("recipient", Str recipient);
                           ("content", Str content)]).
    { unfold parseMessage. now rewrite Hcarries. }
    rewrite onMessage_private by now rewrite Hdata.
    rewrite Hdata. unfold handlePrivateMessage.
    change (prop (Obj [("type", Str "private"); ("recipient", Str recipient);
                       ("content", Str content)]) "recipient")
      with (Str recipient).
    rewrite (find_recipient_holder _ holder recipient Hnames Hholder).
    reflexivity.
Qed.

Lemma private_line_end_to_end_witness :
  Client.promptMessage "@alice see you at 5"
  = Client.ws_send
      (Client.json (Obj [("type", Str "private");
                         ("recipient", Str "alice");
                         ("content", Str "see you at 5")]))
  /\ onMessage Reader.parse (server (world_after alice_and_guest_events))
               (readyState (world_after alice_and_guest_events)) 2
               (Reader.private_text "alice" "see you at 5")
               "2024-05-01T10:00:27.000Z"
     = Normal (server (world_after alice_and_guest_events),
               [(1,
                 JSON_stringify
                   (Obj [("type", Str "private");
                         ("sender",
                          Map_get (usernames
                                     (server (world_after alice_and_guest_events)))
                                  2);
                         ("content", Str "see you at 5");
                         ("timestamp", Str "2024-05-01T10:00:27.000Z")]));
                (2,
                 JSON_stringify
                   (Obj [("type", Str "private");
                         ("sender",
                          Map_get (usernames
                                     (server (world_after alice_and_guest_events)))
                                  2);
                         ("content", Str "see you at 5");
                         ("timestamp", Str "2024-05-01T10:00:27.000Z")]))]).
Proof.
  apply (private_line_end_to_end Reader.parse
           (world_after alice_and_guest_events) 2 1
           "alice" "see you at 5"
           (Reader.private_text "alice" "see you at 5")
           "2024-05-01T10:00:27.000Z").
  - exact alice_and_guest_reachable.
  - intros [H|[H|[H|[H|[H|[]]]]]]; discriminate H.
  - reflexivity.
  - reflexivity.
Defined.

Lemma forEach_history_lines history_line entries lines :
  Forall2 (fun msg line =>
             is_object msg = true
             /\ history_line (prop msg "sender") (prop msg "timestamp")
                             (prop msg "content") = Normal line)
          entries lines ->
  Client.forEach_history history_line entries
  = (map (fun line => Client.console_log [Str line]) lines, None).
Proof.
  induction 1 as [|msg line entries lines [Hmsg Hline] _ IH]; [reflexivity|].
  destruct msg; try discriminate Hmsg.
  cbn [Client.forEach_history map]. rewrite Hline, IH.
  reflexivity.
Qed.

Lemma forEach_history_stops history_line entries lines bad rest :
  Forall2 (fun msg line =>
             is_object msg = true
             /\ history_line (prop msg "sender") (prop msg "timestamp")
                             (prop msg "content") = Normal line)
          entries lines ->
  is_object bad = true ->
  history_line (prop bad "sender") (prop bad "timestamp") (prop bad "content")
  = Throw TypeError ->
  Client.forEach_history history_line (entries ++ bad :: rest)
  = (map (fun line => Client.console_log [Str line]) lines, Some TypeError).
Proof.
  intros H Hbad Hthrow.
  induction H as [|msg line entries lines [Hmsg Hline] _ IH].
  - destruct bad; try discriminate Hbad.
    cbn [app Client.forEach_history map]. now rewrite Hthrow.
  - destruct msg; try discriminate Hmsg.
    cbn [app Client.forEach_history map]. rewrite Hline, IH. reflexivity.
Qed.

(** X16: [showMessageHistory] prints nothing for a history that is absent
    or empty.  For a history of envelopes whose lines can all be built it
    prints the heading, one line for each envelope in the order received,
    and the closing rule.  At the first envelope whose line cannot be built
    it stops with the exception: the heading and the lines before it have
    been printed, the later ones and the closing rule have not. *)
Theorem showMessageHistory_lines
    (history_line : Value -> Value -> Value -> Completion string)
    (entries : list Value) (lines : list string) :
  Forall2 (fun msg line =>
             is_object msg = true
             /\ history_line (prop msg "sender") (prop msg "timestamp")
                             (prop msg "content") = Normal line)
          entries lines ->
  Client.showMessageHistory history_line (Arr entries)
  = (match entries with
     | [] => []
     | _ :: _ =>
         Client.console_log
           [Str (Client.newline ++ "=== Recent Messages ===")%string]
         :: map (fun line => Client.console_log [Str line]) lines
         ++ [Client.console_log
               [Str ("==================" ++ Client.newline)%string]]
     end, None)
  /\ (forall bad rest,
         is_object bad = true ->
         history_line (prop bad "sender") (prop bad "timestamp")
                      (prop bad "content") = Throw TypeError ->
         Client.showMessageHistory history_line (Arr (entries ++ bad :: rest))
         = (Client.console_log
              [Str (Client.newline ++ "=== Recent Messages ===")%string]
            :: map (fun line => Client.console_log [Str line]) lines,
            Some TypeError))
  /\ Client.showMessageHistory history_line Undefined = ([], None)
  /\ Client.showMessageHistory history_line Null = ([], None).
Proof.
  intros H. split; [|split; [|split; reflexivity]].
  - unfold Client.showMessageHistory. rewrite (forEach_history_lines _ _ _ H).
    destruct entries as [|msg entries]; reflexivity.
  - intros bad rest Hbad Hthrow. unfold Client.showMessageHistory.
    rewrite (forEach_history_stops _ _ _ _ rest H Hbad Hthrow).
    destruct entries as [|msg entries]; reflexivity.
Qed.

Lemma showMessageHistory_lines_witness :
  Client.showMessageHistory Client.plain_line
    (Arr [broadcastMessage (server (world_after alice_and_guest_events))
                           (Str "hi") 1 "2024-05-01T10:00:13.000Z"])
  = ([Client.console_log
        [Str (Client.newline ++ "=== Recent Messages ===")%string];
      Client.console_log [Str "alice: hi"];
      Client.console_log
        [Str ("==================" ++ Client.newline)%string]], None)
  /\ Client.showMessageHistory Client.plain_line
       (Arr [broadcastMessage (server (world_after alice_and_guest_events))
                              (Str "hi") 1 "2024-05-01T10:00:13.000Z";
             broadcastMessage (server (world_after alice_and_guest_events))
                              (Obj [("toString", Null)]) 1
                              "2024-05-01T10:00:14.000Z";
             broadcastMessage (server (world_after alice_and_guest_events))
                              (Str "bye") 1 "2024-05-01T10:00:15.000Z"])
     = ([Client.console_log
           [Str (Client.newline ++ "=== Recent Messages ===")%string];
         Client.console_log [Str "alice: hi"]], Some TypeError).
Proof.
  assert (H : Forall2
                (fun msg line =>
                   is_object msg = true
                   /\ Client.plain_line (prop msg "sender") (prop msg "timestamp")
                                        (prop msg "content") = Normal line)
                [broadcastMessage (server (world_after alice_and_guest_events))
                                  (Str "hi") 1 "2024-05-01T10:00:13.000Z"]
                ["alice: hi"]).
  { constructor; [split; reflexivity | constructor]. }
  destruct (showMessageHistory_lines Client.plain_line _ _ H)
    as [Hall [Hstops _]].
  split; [exact Hall|].
  apply (Hstops (broadcastMessage (server (world_after alice_and_guest_events))
                                  (Obj [("toString", Null)]) 1
                                  "2024-05-01T10:00:14.000Z")
                [broadcastMessage (server (world_after alice_and_guest_events))
                                  (Str "bye") 1 "2024-05-01T10:00:15.000Z"]);
    reflexivity.
Defined.

(** X17: the registry never forgets a socket.  No step of the event loop,
    the [close] and the [error] of the socket included, takes an entry out
    of [usernames]: a socket that has a name keeps having one. *)
Theorem usernames_never_shrinks
    (JSON_parse : string -> option Value) (w w' : World)
    (e : Event) (ws : WebSocket) :
  step JSON_parse w e = Normal w' ->
  Map_has (usernames (server w)) ws = true ->
  Map_has (usernames (server w')) ws = true.
Proof.
  intros Hstep Hhas.
  destruct e as [ws0|ws0 payload now|ws0|ws0|ws0 state]; simpl in Hstep;
    try (injection Hstep as <-; exact Hhas).
  destruct (onMessage JSON_parse (server w) (readyState w) ws0 payload now)
    as [r|x] eqn:Hr; simpl in Hstep; [|discriminate].
  injection Hstep as <-. simpl.
  apply onMessage_cases in Hr. destruct Hr as [[_ ->]|[[_ ->]|[_ [_ ->]]]].
  - unfold handleAuth.
    destruct (includes (Map_values (usernames (server w)))
                       (prop (parseMessage JSON_parse payload) "username"));
      [assumption|].
    cbn [fst usernames]. now rewrite Map_has_set, Hhas.
  - now rewrite handlePrivateMessage_state.
  - exact Hhas.
Qed.

Lemma usernames_never_shrinks_witness :
  Map_has (usernames
             (server (world_after (alice_and_guest_events ++ [close 1])))) 1
  = true.
Proof.
  apply (usernames_never_shrinks Reader.parse
           (world_after alice_and_guest_events)
           (world_after (alice_and_guest_events ++ [close 1]))
           (close 1) 1).
  - reflexivity.
  - reflexivity.
Defined.
